(** * Doorbell event pipeline of the Smart Ghanti admin backend

    A shallow embedding of [backend/services/firebaseService.js]
    (class [FirebaseService]) and of the visitor model
    [backend/models/Visitor.js], followed by the properties of the
    pipeline: claim guard, image acquisition, recognition, authorization
    lookup, result persistence and notification.

    Asynchronous methods are functions in a state-and-exception monad over
    a [World] that holds the stores the service talks to (the claim flags
    and the recognition results in the Firebase Realtime Database, the
    visitors collection, the messages accepted by FCM) and a log of every
    external call with its fate. Collaborators are not under the service's
    control: whether a call is rejected, what an HTTP call answers and
    what the clock reads are given by an environment [Env] that sees the
    whole log so far. *)

From stdpp Require Import gmap strings list.
From Stdlib Require Import ZArith Ascii String.

Local Open Scope string_scope.
Local Open Scope Z_scope.
Local Open Scope list_scope.

(** ** JavaScript values used by the service *)

(** A string is truthy unless it is empty; [undefined] is falsy. *)
Definition truthy (s : string) : bool := negb (String.eqb s "").

Definition truthy_opt (o : option string) : bool :=
  match o with
  | Some s => truthy s
  | None => false
  end.

(** [o || d] for a string-or-undefined [o] and a string [d]. *)
Definition js_or (o : option string) (d : string) : string :=
  match o with
  | Some s => if truthy s then s else d
  | None => d
  end.

(** [hay.includes(needle)]. *)
Fixpoint includes (needle hay : string) : bool :=
  String.prefix needle hay ||
  match hay with
  | EmptyString => false
  | String _ rest => includes needle rest
  end.

(** [message?.includes(needle)], used as a condition. *)
Definition opt_includes (needle : string) (message : option string) : bool :=
  match message with
  | Some m => includes needle m
  | None => false
  end.

(** The argument of [new Date(createdAt)]: a number of milliseconds or a
    date string ([undefined] is [None] at the use site). *)
Inductive DateArg :=
| DNum (ms : Z)
| DStr (s : string).

(** A timestamp string carried by a result: either the producer's string,
    verbatim, or [toISOString()] of an instant (kept symbolic, as the
    instant in milliseconds). *)
Inductive Timestamp :=
| TsRaw (s : string)
| TsIso (ms : Z).

Inductive JsError :=
| RangeError      (* Invalid time value *)
| SyntaxError     (* Invalid regular expression *)
| AxiosError      (* timeout, unreachable, non-2xx *)
| MongoError
| FirebaseError
| MessagingError.

(** ** Data model *)

(** A child of [/doorbell_events]; every field may be absent.
    [ev_processed] is [Some true] exactly when the stored value is the
    boolean [true] (the listener tests [=== true]). *)
Record DoorbellEvent := {
  ev_image : option string;
  ev_imageUrl : option string;
  ev_timestamp : option string;
  ev_deviceId : option string;
  ev_createdAt : option DateArg;
  ev_messageType : option string;
  ev_processed : option bool
}.

(** [response.data] of [POST /recognize]. *)
Record RecognitionOutcome := {
  success : bool;
  authenticated : bool;
  message : option string;
  recognized_names : option (list string)
}.

(** The object returned by [validateVisitor]. *)
Record Validation := {
  isAuthorized : bool;
  visitorName : string
}.

(** A document of the visitors collection ([visitorSchema]); [v_id] is its
    [_id], [v_visitCount] a Number holding an integer. *)
Record Visitor := {
  v_id : N;
  v_name : string;
  v_email : option string;
  v_phone : option string;
  v_isAuthorized : bool;
  v_addedBy : string;
  v_notes : option string;
  v_lastVisit : option Z;
  v_visitCount : Z
}.

(** [finalResult], the value written to [/recognition_results/{eventId}]. *)
Record RecognitionResult := {
  r_deviceId : string;
  r_timestamp : Timestamp;
  r_originalTimestamp : Timestamp;
  r_recognized : bool;
  r_name : string;
  r_authorized : bool;
  r_imageReference : option string;
  r_messageType : string
}.

(** The FCM message built by [sendPushNotification] (its [android] and
    [apns] parts are constants and left out). *)
Record Message := {
  m_topic : string;
  m_title : string;
  m_body : string;
  m_eventId : string;
  m_name : string;
  m_authorized : string;
  m_timestamp : Timestamp
}.

(** The request options passed to axios. Axios applies no timeout unless
    the [timeout] option is given: [cfg_timeout = None] is a request that
    may wait for ever. *)
Record AxiosConfig := {
  cfg_timeout : option N;
  cfg_responseType : option string;
  cfg_contentType : option string
}.

(** ** External calls, their log, and the world *)

Inductive Call :=
| ClaimUpdate (eventId : string) (flag : bool)   (* snapshot.ref.update({processed}) *)
| HttpGet (url : string) (cfg : AxiosConfig)     (* axios.get *)
| HttpPost (url : string) (img : string) (cfg : AxiosConfig) (* axios.post *)
| FindOne (pattern : string)                     (* Visitor.findOne *)
| Save (v : Visitor)                             (* visitor.save() *)
| SinkSet (eventId : string) (r : RecognitionResult) (* resultRef.set *)
| Send (m : Message).                            (* admin.messaging().send *)

(** One logged call; [e_ok] is [false] when the promise was rejected. *)
Record Entry := {
  e_call : Call;
  e_ok : bool
}.

Record World := {
  claims : gmap string bool;
  visitors : list Visitor;
  results : gmap string RecognitionResult;
  sent : list Message;
  trace : list Entry
}.

(** What the collaborators do, given the calls made so far. *)
Record Env := {
  rejects : list Entry -> Call -> bool;
  get_body : list Entry -> string -> string;
  oracle_reply : list Entry -> string -> RecognitionOutcome;
  clock : list Entry -> Z
}.

(** [new RegExp(pattern, 'i')] and the match the store performs with it.
    [RegExp_i] is [None] when the constructor throws a [SyntaxError]. *)
Class RegExpEngine := {
  regexp : Type;
  RegExp_i : string -> option regexp;
  re_test : regexp -> string -> bool
}.

(** ** The monad of asynchronous methods *)

Inductive Res (A : Type) :=
| Ok (a : A)
| Throw (e : JsError).
Arguments Ok {A} a.
Arguments Throw {A} e.

Definition M (A : Type) : Type := World -> Res A * World.

Definition ret {A} (a : A) : M A := fun w => (Ok a, w).

Definition throw {A} (e : JsError) : M A := fun w => (Throw e, w).

Definition bind {A B} (m : M A) (k : A -> M B) : M B :=
  fun w =>
    match m w with
    | (Ok a, w1) => k a w1
    | (Throw e, w1) => (Throw e, w1)
    end.

(** [try { m } catch (error) { h error }]. *)
Definition try_catch {A} (m : M A) (h : JsError -> M A) : M A :=
  fun w =>
    match m w with
    | (Ok a, w1) => (Ok a, w1)
    | (Throw e, w1) => h e w1
    end.

Notation "'await' x '<-' m ';' k" := (bind m (fun x => k))
  (at level 10, x name, m at level 100, k at level 200).
Notation "'await_' m ';' k" := (bind m (fun _ => k))
  (at level 10, m at level 100, k at level 200).

(** ** State updates *)

Definition log (c : Call) (ok : bool) (w : World) : World :=
  {| claims := claims w; visitors := visitors w; results := results w;
     sent := sent w; trace := trace w ++ [{| e_call := c; e_ok := ok |}] |}.

Definition set_claim (eventId : string) (flag : bool) (w : World) : World :=
  {| claims := <[eventId := flag]> (claims w); visitors := visitors w;
     results := results w; sent := sent w; trace := trace w |}.

Definition set_result (eventId : string) (r : RecognitionResult) (w : World) : World :=
  {| claims := claims w; visitors := visitors w;
     results := <[eventId := r]> (results w); sent := sent w; trace := trace w |}.

Definition push_sent (m : Message) (w : World) : World :=
  {| claims := claims w; visitors := visitors w; results := results w;
     sent := sent w ++ [m]; trace := trace w |}.

(** The update issued by [visitor.save()]: the document with the same
    [_id] takes the values of the in-memory one. *)
Definition store_doc (v : Visitor) (vs : list Visitor) : list Visitor :=
  List.map (fun u => if N.eqb (v_id u) (v_id v) then v else u) vs.

Definition set_visitors (vs : list Visitor) (w : World) : World :=
  {| claims := claims w; visitors := vs; results := results w;
     sent := sent w; trace := trace w |}.

(** [visitor.visitCount += 1; visitor.lastVisit = new Date()]. *)
Definition visit (v : Visitor) (now : Z) : Visitor :=
  {| v_id := v_id v; v_name := v_name v; v_email := v_email v;
     v_phone := v_phone v; v_isAuthorized := v_isAuthorized v;
     v_addedBy := v_addedBy v; v_notes := v_notes v;
     v_lastVisit := Some now; v_visitCount := v_visitCount v + 1 |}.

(** ** A regular-expression engine for a fragment of the pattern syntax

    The service is stated over any [RegExpEngine]. This instance covers
    the patterns built from literal characters, [.], the quantifiers
    [*], [+], [?] (and their lazy forms), [|], groups [( )] and [(?: )],
    and a backslash before a punctuation character. It is what the
    examples and the concrete statements below run on. Character classes,
    braces, anchors and letter or digit escapes are outside the fragment;
    the parser does not accept them, and nothing below applies it to
    such a pattern. Matching is on ASCII characters. *)
Module JsRegExp.

Inductive re :=
| Eps
| Chr (c : ascii)
| Dot
| Seq (a b : re)
| Alt (a b : re)
| Star (a : re)
| Void.

(** Case folding of the [i] flag. *)
Definition fold_case (c : ascii) : ascii :=
  let n := nat_of_ascii c in
  if (Nat.leb 65 n && Nat.leb n 90)%bool then ascii_of_nat (n + 32) else c.

(** [.] matches any character but a line terminator. *)
Definition line_terminator (c : ascii) : bool :=
  (Nat.eqb (nat_of_ascii c) 10 || Nat.eqb (nat_of_ascii c) 13)%bool.

Definition is_alnum (c : ascii) : bool :=
  let n := nat_of_ascii c in
  ((Nat.leb 48 n && Nat.leb n 57) || (Nat.leb 65 n && Nat.leb n 90)
   || (Nat.leb 97 n && Nat.leb n 122))%bool.

Definition close (done : option re) (cur : re) (last : option re) : re :=
  let alt := match last with Some a => Seq cur a | None => cur end in
  match done with Some d => Alt d alt | None => alt end.

Definition skip_lazy (s : list ascii) : list ascii :=
  match s with
  | "?"%char :: s' => s'
  | _ => s
  end.

(** Parses a disjunction up to the end of the input or an unconsumed
    [")"]. [done] holds the alternatives already closed, [cur] the terms
    of the current alternative and [last] the atom a quantifier would
    apply to. [None] is a syntax error. *)
Fixpoint parse (fuel : nat) (s : list ascii) (done : option re) (cur : re)
    (last : option re) : option (re * list ascii) :=
  match fuel with
  | O => None
  | S fuel' =>
      let push a rest := parse fuel' rest done
                               (match last with Some l => Seq cur l | None => cur end)
                               (Some a) in
      let quantify f rest :=
        match last with
        | None => None                         (* nothing to repeat *)
        | Some a => parse fuel' (skip_lazy rest) done (Seq cur (f a)) None
        end in
      match s with
      | [] => Some (close done cur last, [])
      | c :: rest =>
          if Ascii.eqb c ")" then Some (close done cur last, s)
          else if Ascii.eqb c "|" then
            parse fuel' rest (Some (close done cur last)) Eps None
          else if Ascii.eqb c "*" then quantify Star rest
          else if Ascii.eqb c "+" then quantify (fun a => Seq a (Star a)) rest
          else if Ascii.eqb c "?" then quantify (fun a => Alt Eps a) rest
          else if Ascii.eqb c "." then push Dot rest
          else if Ascii.eqb c "(" then
            let body :=
              match rest with
              | "?"%char :: ":"%char :: rest' => Some rest'
              | "?"%char :: _ => None
              | _ => Some rest
              end in
            match body with
            | None => None
            | Some inner =>
                match parse fuel' inner None Eps None with
                | Some (g, ")"%char :: rest') => push g rest'
                | _ => None                    (* unterminated group *)
                end
            end
          else if Ascii.eqb c "\" then
            match rest with
            | e :: rest' => if is_alnum e then None else push (Chr e) rest'
            | [] => None                       (* \ at end of pattern *)
            end
          else if (Ascii.eqb c "[" || Ascii.eqb c "{" || Ascii.eqb c "^"
                   || Ascii.eqb c "$")%bool then None
          else push (Chr c) rest
      end
  end.

Definition compile (pattern : string) : option re :=
  let s := list_ascii_of_string pattern in
  match parse (S (List.length s)) s None Eps None with
  | Some (r, []) => Some r
  | _ => None                                  (* unmatched ) *)
  end.

Fixpoint nullable (r : re) : bool :=
  match r with
  | Eps => true
  | Chr _ => false
  | Dot => false
  | Seq a b => nullable a && nullable b
  | Alt a b => nullable a || nullable b
  | Star _ => true
  | Void => false
  end.

(** Brzozowski derivative by the character [c]. *)
Fixpoint deriv (c : ascii) (r : re) : re :=
  match r with
  | Eps => Void
  | Chr d => if Ascii.eqb (fold_case c) (fold_case d) then Eps else Void
  | Dot => if line_terminator c then Void else Eps
  | Seq a b =>
      if nullable a then Alt (Seq (deriv c a) b) (deriv c b)
      else Seq (deriv c a) b
  | Alt a b => Alt (deriv c a) (deriv c b)
  | Star a => Seq (deriv c a) (Star a)
  | Void => Void
  end.

(** Some prefix of [s] is matched by [r]. *)
Fixpoint matches_prefix (r : re) (s : list ascii) : bool :=
  nullable r ||
  match s with
  | [] => false
  | c :: s' => matches_prefix (deriv c r) s'
  end.

(** [r] matches somewhere in [s] (the pattern is not anchored). *)
Fixpoint search (r : re) (s : list ascii) : bool :=
  matches_prefix r s ||
  match s with
  | [] => false
  | _ :: s' => search r s'
  end.

Definition test (r : re) (s : string) : bool :=
  search r (list_ascii_of_string s).

#[export] Instance engine : RegExpEngine :=
  {| regexp := re; RegExp_i := compile; re_test := test |}.

End JsRegExp.

(** ** The life cycle, the reads and the visitor routes: data

    [initialize] of the service, its two reading methods, and the routes
    of [routes/doorbell] that call the service and the visitor model. *)

(** The [isInitialized] field of the service, and what the process holds
    of Firebase: the apps created by [initializeApp] and the
    [child_added] listeners attached by [startEventListener]. *)
Record Boot := {
  isInitialized : bool;
  apps : nat;
  listeners : nat
}.

(** What happens in one call of [initialize]: whether
    [JSON.parse(process.env.FIREBASE_SERVICE_ACCOUNT)] returns, whether
    [credential.cert] and [initializeApp] accept the account, and whether
    [admin.database()], [ref] and [on] go through. *)
Record BootEnv := {
  account_parses : bool;
  app_accepted : bool;
  listener_attaches : bool
}.

(** The Realtime Database as the reading methods see it: whether
    [admin.database()] finds an app, and, for a positive [n], what
    [limitToLast(n).once('value')] gives at each of the two paths, as the
    [val()] of the snapshot ([None] is [null]) or as a rejection. *)
Record Database := {
  db_ready : bool;
  db_events : Z -> Res (option (gmap string DoorbellEvent));
  db_results : Z -> Res (option (gmap string RecognitionResult))
}.

(** The JSON answer of [GET /events] and [GET /results]. *)
Record ListReply (A : Type) := {
  lr_status : nat;
  lr_success : bool;
  lr_items : option (gmap string A);
  lr_count : option nat;
  lr_message : option string
}.
Arguments lr_status {A} _.
Arguments lr_success {A} _.
Arguments lr_items {A} _.
Arguments lr_count {A} _.
Arguments lr_message {A} _.

(** A field of a JSON request body that holds a string when present. *)
Inductive Field :=
| Absent
| Null
| Str (s : string).

(** [req.body] of the visitor routes; [isAuthorized] is a boolean when
    present. *)
Record VisitorBody := {
  b_name : Field;
  b_email : Field;
  b_phone : Field;
  b_notes : Field;
  b_isAuthorized : option bool
}.

(** The JSON answer of the visitor routes. *)
Record Reply := {
  rp_status : nat;
  rp_success : bool;
  rp_message : string;
  rp_visitor : option Visitor
}.

(** The JSON answer of [GET /status]. *)
Record StatusReply := {
  st_status : nat;
  st_success : bool;
  st_firebaseConnected : option bool;
  st_totalVisitors : option nat;
  st_authorizedVisitors : option nat;
  st_faceRecognitionUrl : option string
}.

(** The calls the routes make on the visitor model. *)
Inductive StoreOp :=
| FindByName (pattern : string)      (* Visitor.findOne({name: regex}) *)
| Insert (v : Visitor)               (* save() of a new document *)
| FindById (i : N)                   (* Visitor.findById *)
| Update (v : Visitor)               (* save() of a loaded document *)
| Delete (i : N)                     (* Visitor.findByIdAndDelete *)
| Count                              (* Visitor.countDocuments() *)
| CountAuthorized.                   (* countDocuments({isAuthorized: true}) *)

(** What the collection does for the routes: which calls it rejects,
    given its content, and the [_id] given to a new document. *)
Record StoreEnv := {
  op_rejects : list Visitor -> StoreOp -> bool;
  ObjectId : list Visitor -> N
}.

(** ** Sample data

    Two visitors, a world holding them, a few events, and environments in
    which one collaborator or another is down. *)

Definition ali : Visitor :=
  {| v_id := 1%N; v_name := "Ali Hassan"; v_email := Some "ali@example.com";
     v_phone := None; v_isAuthorized := true; v_addedBy := "admin";
     v_notes := None; v_lastVisit := None; v_visitCount := 4 |}.

Definition sara : Visitor :=
  {| v_id := 2%N; v_name := "Sara Khan"; v_email := None; v_phone := None;
     v_isAuthorized := false; v_addedBy := "admin"; v_notes := None;
     v_lastVisit := Some 1699999990000; v_visitCount := 1 |}.

Definition sample_world : World :=
  {| claims := ∅; visitors := [sara; ali]; results := ∅; sent := [];
     trace := [] |}.

Definition names_outcome (names : list string) : RecognitionOutcome :=
  {| success := true; authenticated := true; message := Some "recognized";
     recognized_names := Some names |}.

(** An environment that rejects the calls [down] selects and whose oracle
    answers [reply]. *)
Definition sample_env (down : Call -> bool) (reply : RecognitionOutcome) : Env :=
  {| rejects := fun _ c => down c;
     get_body := fun _ _ => "/9j/4AAQSkZJRg==";
     oracle_reply := fun _ _ => reply;
     clock := fun h => 1700000000000 + Z.of_nat (List.length h) |}.

Definition nothing_down (c : Call) : bool := false.

Definition oracle_down (c : Call) : bool :=
  match c with
  | HttpPost _ _ _ => true
  | _ => false
  end.

Definition store_down (c : Call) : bool :=
  match c with
  | FindOne _ | Save _ => true
  | _ => false
  end.

Definition sink_down (c : Call) : bool :=
  match c with
  | SinkSet _ _ => true
  | _ => false
  end.

Definition no_Date_parse (s : string) : option Z := None.

(** [{image, timestamp, deviceId}] *)
Definition inline_event : DoorbellEvent :=
  {| ev_image := Some "/9j/4AAQSkZJRg=="; ev_imageUrl := None;
     ev_timestamp := Some "2025-12-29 08:40:35 PM";
     ev_deviceId := Some "esp32-cam-1"; ev_createdAt := None;
     ev_messageType := None; ev_processed := None |}.

(** [{imageUrl, timestamp}] *)
Definition url_event : DoorbellEvent :=
  {| ev_image := None; ev_imageUrl := Some "http://192.168.1.20/capture.jpg";
     ev_timestamp := Some "2025-12-29 08:40:35 PM";
     ev_deviceId := None; ev_createdAt := None;
     ev_messageType := None; ev_processed := None |}.

(** [{timestamp, deviceId}]: no image of either form. *)
Definition imageless_event : DoorbellEvent :=
  {| ev_image := None; ev_imageUrl := None;
     ev_timestamp := Some "2025-12-29 08:40:35 PM";
     ev_deviceId := Some "esp32-cam-1"; ev_createdAt := None;
     ev_messageType := None; ev_processed := None |}.

(** [{deviceId, messageType}]: no image, no [timestamp], no [createdAt]. *)
Definition bare_event : DoorbellEvent :=
  {| ev_image := None; ev_imageUrl := None; ev_timestamp := None;
     ev_deviceId := Some "esp32-cam-1"; ev_createdAt := None;
     ev_messageType := Some "motion_detection"; ev_processed := None |}.

(** [inline_event] as redelivered after it was processed. *)
Definition claimed_event : DoorbellEvent :=
  {| ev_image := Some "/9j/4AAQSkZJRg=="; ev_imageUrl := None;
     ev_timestamp := Some "2025-12-29 08:40:35 PM";
     ev_deviceId := Some "esp32-cam-1"; ev_createdAt := None;
     ev_messageType := None; ev_processed := Some true |}.

(** Two strings with no character in common. *)
Definition disjoint_chars (a b : string) : bool :=
  forallb (fun c => negb (existsb (Ascii.eqb c) (list_ascii_of_string b)))
          (list_ascii_of_string a).

(** Sample data for the routes: string setters on ASCII, a collection
    that answers every call, and a few request bodies. *)

Definition ascii_space (c : ascii) : bool :=
  let n := nat_of_ascii c in
  (Nat.leb 9 n && Nat.leb n 13 || Nat.eqb n 32)%bool.

Fixpoint drop_spaces (s : list ascii) : list ascii :=
  match s with
  | c :: rest => if ascii_space c then drop_spaces rest else s
  | [] => []
  end.

Definition ascii_trim (s : string) : string :=
  string_of_list_ascii
    (List.rev (drop_spaces (List.rev (drop_spaces (list_ascii_of_string s))))).

Definition ascii_set_email (s : string) : string :=
  string_of_list_ascii
    (List.map JsRegExp.fold_case (list_ascii_of_string (ascii_trim s))).

Definition sample_store : StoreEnv :=
  {| op_rejects := fun _ _ => false;
     ObjectId := fun vs => N.succ (List.fold_right N.max 0%N (List.map v_id vs)) |}.

Definition body_named (name : string) : VisitorBody :=
  {| b_name := Str name; b_email := Str " Guest@Example.COM ";
     b_phone := Absent; b_notes := Null; b_isAuthorized := None |}.

Definition revoke_body : VisitorBody :=
  {| b_name := Absent; b_email := Absent; b_phone := Absent;
     b_notes := Absent; b_isAuthorized := Some false |}.

Definition fresh_boot : Boot :=
  {| isInitialized := false; apps := 0; listeners := 0 |}.

Definition alia : Visitor :=
  {| v_id := 3%N; v_name := "Alia Raza"; v_email := None; v_phone := None;
     v_isAuthorized := true; v_addedBy := "admin"; v_notes := None;
     v_lastVisit := None; v_visitCount := 0 |}.

Definition image_down (c : Call) : bool :=
  match c with
  | HttpGet _ _ => true
  | _ => false
  end.

Definition blank_result : RecognitionResult :=
  {| r_deviceId := "esp32-doorbell"; r_timestamp := TsIso 0;
     r_originalTimestamp := TsIso 0; r_recognized := false;
     r_name := "unknown"; r_authorized := false; r_imageReference := None;
     r_messageType := "motion_detection" |}.

Definition sample_parseInt (raw : option string) : option Z :=
  match raw with
  | Some "10" => Some 10
  | Some "0" => Some 0
  | Some "-5" => Some (-5)
  | _ => None
  end.

Definition sample_db : Database :=
  {| db_ready := true;
     db_events := fun _ => Ok None;
     db_results := fun _ => Ok (Some {["e1" := blank_result]}) |}.

Definition all_goes_well : BootEnv :=
  {| account_parses := true; app_accepted := true; listener_attaches := true |}.

Definition listener_fails : BootEnv :=
  {| account_parses := true; app_accepted := true; listener_attaches := false |}.

(** ** The service *)

Section Service.

Context {RE : RegExpEngine}.
(** [Date.parse] on strings; [None] is NaN. *)
Variable Date_parse : string -> option Z.
Variable env : Env.

(** An external call: logged, then rejected or not as the environment
    decides. *)
Definition request (c : Call) (e : JsError) : M unit :=
  fun w =>
    let bad := rejects env (trace w) c in
    (if bad then Throw e else Ok tt, log c (negb bad) w).

Definition modify (f : World -> World) : M unit := fun w => (Ok tt, f w).

Definition ref_update (eventId : string) (flag : bool) : M unit :=
  await_ request (ClaimUpdate eventId flag) FirebaseError;
  modify (set_claim eventId flag).

(** [axios.get]; the value is the body already turned into base64
    ([Buffer.from(response.data).toString('base64')]). *)
Definition axios_get (url : string) (cfg : AxiosConfig) : M string :=
  fun w =>
    let body := get_body env (trace w) url in
    (await_ request (HttpGet url cfg) AxiosError; ret body) w.

Definition axios_post (url img : string) (cfg : AxiosConfig) : M RecognitionOutcome :=
  fun w =>
    let data := oracle_reply env (trace w) img in
    (await_ request (HttpPost url img cfg) AxiosError; ret data) w.

(** The documents matching [{name: {$regex: re}, isAuthorized: true}],
    first in the collection's order. *)
Definition authorized_match (re : regexp) (vs : list Visitor) : option Visitor :=
  List.find (fun v => v_isAuthorized v && re_test re (v_name v)) vs.

Definition Visitor_findOne (pattern : string) (re : regexp) : M (option Visitor) :=
  await_ request (FindOne pattern) MongoError;
  fun w => (Ok (authorized_match re (visitors w)), w).

Definition Visitor_save (v : Visitor) : M unit :=
  await_ request (Save v) MongoError;
  modify (fun w => set_visitors (store_doc v (visitors w)) w).

Definition resultRef_set (eventId : string) (r : RecognitionResult) : M unit :=
  await_ request (SinkSet eventId r) FirebaseError;
  modify (set_result eventId r).

Definition messaging_send (m : Message) : M unit :=
  await_ request (Send m) MessagingError;
  modify (push_sent m).

(** [new Date()]. *)
Definition new_Date : M Z := fun w => (Ok (clock env (trace w)), w).

(** The time value of [new Date(createdAt)]; [None] is an invalid date. *)
Definition time_value (createdAt : option DateArg) : option Z :=
  match createdAt with
  | None => None
  | Some (DNum ms) =>
      if (Z.abs ms <=? 8640000000000000) then Some ms else None
  | Some (DStr s) => Date_parse s
  end.

(** [timestamp || new Date(createdAt).toISOString()]. *)
Definition actualTimestamp (eventData : DoorbellEvent) : M Timestamp :=
  if truthy_opt (ev_timestamp eventData)
  then ret (TsRaw (js_or (ev_timestamp eventData) ""))
  else match time_value (ev_createdAt eventData) with
       | Some ms => ret (TsIso ms)
       | None => throw RangeError
       end.

Definition faceRecognitionUrl : string := "http://localhost:5001".

Definition get_config : AxiosConfig :=
  {| cfg_timeout := None; cfg_responseType := Some "arraybuffer";
     cfg_contentType := None |}.

Definition post_config : AxiosConfig :=
  {| cfg_timeout := Some 30000%N; cfg_responseType := None;
     cfg_contentType := Some "application/json" |}.

(** Lines 73-88 of the service: [processedImage], a string or [null]. *)
Definition acquireImage (eventData : DoorbellEvent) : M (option string) :=
  if truthy_opt (ev_image eventData) then ret (ev_image eventData)
  else if truthy_opt (ev_imageUrl eventData) then
    try_catch
      (await body <- axios_get (js_or (ev_imageUrl eventData) "") get_config;
       ret (Some body))
      (fun _ => ret None)
  else ret None.

Definition no_image_outcome : RecognitionOutcome :=
  {| success := false; authenticated := false;
     message := Some "unclassified - no image"; recognized_names := Some [] |}.

Definition unavailable_outcome : RecognitionOutcome :=
  {| success := false; authenticated := false;
     message := Some "unclassified - service unavailable";
     recognized_names := Some [] |}.

Definition callFacialRecognition (base64Image : option string)
  : M RecognitionOutcome :=
  if negb (truthy_opt base64Image) then ret no_image_outcome
  else
    try_catch
      (axios_post (faceRecognitionUrl +:+ "/recognize")
                  (js_or base64Image "") post_config)
      (fun _ => ret unavailable_outcome).

(** The [for ... of] loop of [validateVisitor] over the names still to be
    tried; [first] is [recognizedNames[0]]. *)
Fixpoint lookup_loop (first : string) (names : list string) : M Validation :=
  match names with
  | [] => ret {| isAuthorized := false; visitorName := first |}
  | name :: rest =>
      match RegExp_i name with
      | None => throw SyntaxError
      | Some re =>
          await found <- Visitor_findOne name re;
          match found with
          | Some visitor =>
              await now <- new_Date;
              let visitor' := visit visitor now in
              await_ Visitor_save visitor';
              ret {| isAuthorized := true; visitorName := v_name visitor' |}
          | None => lookup_loop first rest
          end
      end
  end.

Definition validateVisitor (recognitionResult : RecognitionOutcome)
  : M Validation :=
  if negb (success recognitionResult) || negb (authenticated recognitionResult)
  then ret {| isAuthorized := false;
              visitorName :=
                if opt_includes "unclassified" (message recognitionResult)
                then "unclassified" else "unknown" |}
  else
    let recognizedNames := default [] (recognized_names recognitionResult) in
    match recognizedNames with
    | [] => ret {| isAuthorized := false; visitorName := "unknown" |}
    | first :: _ =>
        try_catch
          (lookup_loop first recognizedNames)
          (fun _ => ret {| isAuthorized := false;
                           visitorName := js_or (Some first) "unknown" |})
    end.

Definition writeRecognitionResult (eventId : string) (result : RecognitionResult)
  : M unit :=
  try_catch (resultRef_set eventId result) (fun error => throw error).

Definition notification (eventId : string) (finalResult : RecognitionResult)
  : Message :=
  let name := r_name finalResult in
  let authorized := r_authorized finalResult in
  {| m_topic := "doorbell_notifications";
     m_title := if authorized then "Welcome " +:+ name +:+ "!"
                else "Visitor: " +:+ name;
     m_body := if authorized
               then "Authorized visitor " +:+ name +:+ " at your door"
               else name +:+ " detected at your doorbell";
     m_eventId := eventId;
     m_name := name;
     m_authorized := if authorized then "true" else "false";
     m_timestamp := r_timestamp finalResult |}.

Definition sendPushNotification (eventId : string) (finalResult : RecognitionResult)
  : M unit :=
  try_catch (messaging_send (notification eventId finalResult))
            (fun _ => ret tt).

Definition finalResult_of (eventId : string) (eventData : DoorbellEvent)
    (actualTs : Timestamp) (processedImage : option string)
    (recognitionResult : RecognitionOutcome) (validationResult : Validation)
    (now : Z) : RecognitionResult :=
  {| r_deviceId := js_or (ev_deviceId eventData) "esp32-doorbell";
     r_timestamp := TsIso now;
     r_originalTimestamp := actualTs;
     r_recognized := success recognitionResult && authenticated recognitionResult;
     r_name := js_or (Some (visitorName validationResult)) "unknown";
     r_authorized := isAuthorized validationResult || false;
     r_imageReference :=
       if truthy_opt processedImage then Some ("event_" +:+ eventId) else None;
     r_messageType := js_or (ev_messageType eventData) "motion_detection" |}.

Definition processDoorbellEvent (eventId : string) (eventData : DoorbellEvent)
  : M unit :=
  await actualTs <- actualTimestamp eventData;
  await processedImage <- acquireImage eventData;
  await recognitionResult <- callFacialRecognition processedImage;
  await validationResult <- validateVisitor recognitionResult;
  await now <- new_Date;
  let finalResult :=
    finalResult_of eventId eventData actualTs processedImage
                   recognitionResult validationResult now in
  await_ writeRecognitionResult eventId finalResult;
  await_ sendPushNotification eventId finalResult;
  ret tt.

(** The [child_added] callback of [startEventListener]. *)
Definition onChildAdded (eventId : string) (eventData : DoorbellEvent) : M unit :=
  match ev_processed eventData with
  | Some true => ret tt
  | _ =>
      try_catch
        (await_ ref_update eventId true;
         processDoorbellEvent eventId eventData)
        (fun _ => ref_update eventId false)
  end.


(** ** Definitions used to state the properties *)

(** Lines 108-111 of [processDoorbellEvent]: write the result, then
    notify. *)
Definition persist_and_notify (eventId : string) (finalResult : RecognitionResult)
  : M unit :=
  await_ writeRecognitionResult eventId finalResult;
  await_ sendPushNotification eventId finalResult;
  ret tt.

(** The [try] block of the listener. *)
Definition guarded_run (eventId : string) (eventData : DoorbellEvent) : M unit :=
  await_ ref_update eventId true;
  processDoorbellEvent eventId eventData.

(** The world after the same event has been delivered [n] times. *)
Fixpoint deliver_times (n : nat) (eventId : string) (eventData : DoorbellEvent)
    (w : World) : World :=
  match n with
  | O => w
  | S k => deliver_times k eventId eventData (snd (onChildAdded eventId eventData w))
  end.

(** The document of the collection with a given [_id]. *)
Definition doc_by_id (i : N) (vs : list Visitor) : option Visitor :=
  List.find (fun u => N.eqb (v_id u) i) vs.

Definition store_call (c : Call) : bool :=
  match c with
  | FindOne _ | Save _ => true
  | _ => false
  end.

(** Calls made before the persistence stage. *)
Definition early_call (c : Call) : bool :=
  match c with
  | HttpGet _ _ | HttpPost _ _ _ | FindOne _ | Save _ => true
  | _ => false
  end.

(** The call [callFacialRecognition] makes for a non-null image. *)
Definition recognize_call (base64Image : option string) : Call :=
  HttpPost (faceRecognitionUrl +:+ "/recognize") (js_or base64Image "")
           post_config.

(** The Authorization Store answers every call. *)
Definition store_reachable : Prop :=
  forall h c, store_call c = true -> rejects env h c = false.

Definition is_send (c : Call) : bool :=
  match c with
  | Send _ => true
  | _ => false
  end.

(** The log of lookups that were answered, one per candidate. *)
Definition lookups (names : list string) : list Entry :=
  List.map (fun p => {| e_call := FindOne p; e_ok := true |}) names.

(** A candidate whose pattern compiles and whose lookup finds no
    authorized visitor in [vs]. *)
Definition no_hit (vs : list Visitor) (name : string) : Prop :=
  exists re, RegExp_i name = Some re /\ authorized_match re vs = None.

(** What a stage before persistence may change: the visitors and the
    log, the latter by [early_call]s only. *)
Definition stage_frame (w w' : World) : Prop :=
  claims w' = claims w /\ results w' = results w /\ sent w' = sent w /\
  exists d, trace w' = trace w ++ d /\
            Forall (fun e => early_call (e_call e) = true) d.

(** The value of the [catch] block of [validateVisitor]. *)
Definition store_fallback (first : string) : Validation :=
  {| isAuthorized := false; visitorName := js_or (Some first) "unknown" |}.

(** The literal, case-insensitive substring test the lookup is not. *)
Definition lower (s : string) : string :=
  string_of_list_ascii (List.map JsRegExp.fold_case (list_ascii_of_string s)).

Definition literal_match (candidate name : string) : bool :=
  includes (lower candidate) (lower name).

(** The run of [processDoorbellEvent] from [w] reaches the persistence
    stage in the world [w3] with the result [r]: it asks the Result Sink
    to store [r] under the event id; if the sink rejects the write the run
    throws and stops; if the sink accepts, [r] is the stored result, the
    notification built from [r] is dispatched next, and the run returns
    whether or not the channel took it. *)
Definition result_handed_to_sink (eventId : string) (eventData : DoorbellEvent)
    (w : World) (r : RecognitionResult) (w3 : World) : Prop :=
  let run := processDoorbellEvent eventId eventData w in
  let write ok := {| e_call := SinkSet eventId r; e_ok := ok |} in
  if rejects env (trace w3) (SinkSet eventId r)
  then fst run = Throw FirebaseError /\
       trace (snd run) = trace w3 ++ [write false] /\
       results (snd run) = results w3 /\ sent (snd run) = sent w3
  else fst run = Ok tt /\
       results (snd run) !! eventId = Some r /\
       exists delivered,
         trace (snd run) = trace w3 ++
           [write true;
            {| e_call := Send (notification eventId r); e_ok := delivered |}].

(** ** The life cycle of the service *)

(** [initialize]. [initializeApp] refuses to create the default app
    twice. The error caught is thrown again. *)
Definition initialize (e : BootEnv) (s : Boot) : Res unit * Boot :=
  if isInitialized s then (Ok tt, s)
  else if negb (account_parses e) then (Throw SyntaxError, s)
  else if negb (app_accepted e) || Nat.ltb 0 (apps s)
  then (Throw FirebaseError, s)
  else
    let s1 := {| isInitialized := true; apps := S (apps s);
                 listeners := listeners s |} in
    if listener_attaches e
    then (Ok tt, {| isInitialized := true; apps := apps s1;
                    listeners := S (listeners s1) |})
    else (Throw FirebaseError, s1).

(** The state after the calls of [initialize] of a list, in order. *)
Fixpoint initialize_all (es : list BootEnv) (s : Boot) : Boot :=
  match es with
  | [] => s
  | e :: rest => initialize_all rest (snd (initialize e s))
  end.

(** ** The reading methods and their routes *)

(** [db.ref(path).limitToLast(limit)] then [once('value')] and [val()]:
    [admin.database()] throws without an app, and [limitToLast] throws
    unless its argument is a positive integer. *)
Definition limitToLast_once {A} (ready : bool)
    (read : Z -> Res (option (gmap string A))) (limit : Z)
  : Res (option (gmap string A)) :=
  if negb ready then Throw FirebaseError
  else if limit <=? 0 then Throw FirebaseError
  else read limit.

Definition getEventHistory (db : Database) (limit : Z)
  : Res (gmap string DoorbellEvent) :=
  match limitToLast_once (db_ready db) (db_events db) limit with
  | Ok (Some events) => Ok events
  | Ok None => Ok ∅
  | Throw _ => Ok ∅
  end.

Definition getRecognitionResults (db : Database) (limit : Z)
  : Res (gmap string RecognitionResult) :=
  match limitToLast_once (db_ready db) (db_results db) limit with
  | Ok (Some found) => Ok found
  | Ok None => Ok ∅
  | Throw _ => Ok ∅
  end.

(** [parseInt] on a query parameter; [None] is NaN. *)
Variable parseInt : option string -> option Z.

(** [parseInt(req.query.limit) || 50]. *)
Definition query_limit (raw : option string) : Z :=
  match parseInt raw with
  | Some 0 => 50
  | Some n => n
  | None => 50
  end.

(** [GET /events]. *)
Definition get_events (db : Database) (raw_limit : option string)
  : ListReply DoorbellEvent :=
  match getEventHistory db (query_limit raw_limit) with
  | Ok events =>
      {| lr_status := 200; lr_success := true; lr_items := Some events;
         lr_count := Some (size events); lr_message := None |}
  | Throw _ =>
      {| lr_status := 500; lr_success := false; lr_items := None;
         lr_count := None; lr_message := Some "Failed to fetch events" |}
  end.

(** [GET /results]. *)
Definition get_results (db : Database) (raw_limit : option string)
  : ListReply RecognitionResult :=
  match getRecognitionResults db (query_limit raw_limit) with
  | Ok found =>
      {| lr_status := 200; lr_success := true; lr_items := Some found;
         lr_count := Some (size found); lr_message := None |}
  | Throw _ =>
      {| lr_status := 500; lr_success := false; lr_items := None;
         lr_count := None; lr_message := Some "Failed to fetch results" |}
  end.

(** ** The visitor routes *)

(** The setters of the schema: [trim] on the name, the phone and the
    notes, [trim] and [lowercase] on the email. *)
Variable trim : string -> string.
Variable set_email : string -> string.
Variable store : StoreEnv.

(** The string of a field that is truthy. *)
Definition truthy_string (f : Field) : option string :=
  match f with
  | Str s => if truthy s then Some s else None
  | _ => None
  end.

Definition field_string (f : Field) : option string :=
  match f with
  | Str s => Some s
  | _ => None
  end.

Definition reply_error (status : nat) (text : string) : Reply :=
  {| rp_status := status; rp_success := false; rp_message := text;
     rp_visitor := None |}.

(** [new Visitor({name, email, phone, notes, isAuthorized: true,
    addedBy})] with the defaults of the schema. *)
Definition new_Visitor (admin_email : option string) (body : VisitorBody)
    (id : N) (name : string) : Visitor :=
  {| v_id := id; v_name := trim name;
     v_email := option_map set_email (field_string (b_email body));
     v_phone := option_map trim (field_string (b_phone body));
     v_isAuthorized := true;
     v_addedBy := default "admin" admin_email;
     v_notes := option_map trim (field_string (b_notes body));
     v_lastVisit := None; v_visitCount := 0 |}.

(** [POST /visitors]. Every error of the [try] block is answered 500;
    the validation of [save] requires a name that is not empty. *)
Definition post_visitor (admin_email : option string) (body : VisitorBody)
    (vs : list Visitor) : Reply * list Visitor :=
  match truthy_string (b_name body) with
  | None => (reply_error 400 "Visitor name is required", vs)
  | Some name =>
      let failed := (reply_error 500 "Failed to add visitor", vs) in
      match RegExp_i name with
      | None => failed
      | Some re =>
          if op_rejects store vs (FindByName name) then failed
          else
            match List.find (fun v => re_test re (v_name v)) vs with
            | Some _ =>
                (reply_error 400 "Visitor with this name already exists", vs)
            | None =>
                let visitor := new_Visitor admin_email body (ObjectId store vs) name in
                if String.eqb (v_name visitor) "" then failed
                else if op_rejects store vs (Insert visitor) then failed
                else
                  ({| rp_status := 201; rp_success := true;
                      rp_message := "Visitor added successfully";
                      rp_visitor := Some visitor |}, vs ++ [visitor])
            end
      end
  end.

(** The assignments of [PUT /visitors/:id] on the loaded document. *)
Definition assign_fields (body : VisitorBody) (visitor : Visitor) : Visitor :=
  let text (f : Field) (old : option string) (set : string -> string) :=
    match f with
    | Absent => old
    | Null => None
    | Str s => Some (set s)
    end in
  {| v_id := v_id visitor;
     v_name := match truthy_string (b_name body) with
               | Some name => trim name
               | None => v_name visitor
               end;
     v_email := text (b_email body) (v_email visitor) set_email;
     v_phone := text (b_phone body) (v_phone visitor) trim;
     v_isAuthorized := default (v_isAuthorized visitor) (b_isAuthorized body);
     v_addedBy := v_addedBy visitor;
     v_notes := text (b_notes body) (v_notes visitor) trim;
     v_lastVisit := v_lastVisit visitor;
     v_visitCount := v_visitCount visitor |}.

(** [PUT /visitors/:id]; [id] is [None] when the parameter is not an
    ObjectId, which makes [findById] throw. *)
Definition put_visitor (id : option N) (body : VisitorBody)
    (vs : list Visitor) : Reply * list Visitor :=
  let failed := (reply_error 500 "Failed to update visitor", vs) in
  match id with
  | None => failed
  | Some i =>
      if op_rejects store vs (FindById i) then failed
      else
        match doc_by_id i vs with
        | None => (reply_error 404 "Visitor not found", vs)
        | Some visitor =>
            let visitor' := assign_fields body visitor in
            if String.eqb (v_name visitor') "" then failed
            else if op_rejects store vs (Update visitor') then failed
            else
              ({| rp_status := 200; rp_success := true;
                  rp_message := "Visitor updated successfully";
                  rp_visitor := Some visitor' |}, store_doc visitor' vs)
        end
  end.

(** The collection without its first document of a given [_id]. *)
Fixpoint remove_doc (i : N) (vs : list Visitor) : list Visitor :=
  match vs with
  | [] => []
  | u :: rest => if N.eqb (v_id u) i then rest else u :: remove_doc i rest
  end.

(** [DELETE /visitors/:id]. *)
Definition delete_visitor (id : option N) (vs : list Visitor)
  : Reply * list Visitor :=
  let failed := (reply_error 500 "Failed to delete visitor", vs) in
  match id with
  | None => failed
  | Some i =>
      if op_rejects store vs (FindById i) then failed
      else
        match doc_by_id i vs with
        | None => (reply_error 404 "Visitor not found", vs)
        | Some _ =>
            if op_rejects store vs (Delete i) then failed
            else
              ({| rp_status := 200; rp_success := true;
                  rp_message := "Visitor deleted successfully";
                  rp_visitor := None |}, remove_doc i vs)
        end
  end.

(** [GET /status]. *)
Definition get_status (boot : Boot) (vs : list Visitor) : StatusReply :=
  let failed :=
    {| st_status := 500; st_success := false; st_firebaseConnected := None;
       st_totalVisitors := None; st_authorizedVisitors := None;
       st_faceRecognitionUrl := None |} in
  if op_rejects store vs Count then failed
  else if op_rejects store vs CountAuthorized then failed
  else
    {| st_status := 200; st_success := true;
       st_firebaseConnected := Some (isInitialized boot);
       st_totalVisitors := Some (List.length vs);
       st_authorizedVisitors := Some (List.length (List.filter v_isAuthorized vs));
       st_faceRecognitionUrl := Some faceRecognitionUrl |}.

(** One document per [_id], and no empty name. *)
Definition well_formed_store (vs : list Visitor) : Prop :=
  List.NoDup (List.map v_id vs) /\ Forall (fun v => v_name v <> "") vs.

(** What every result handed to the Result Sink satisfies: it is
    authorized only if recognized, its name is not empty, and its image
    reference is absent or names the event. *)
Definition sound_result (eventId : string) (r : RecognitionResult) : Prop :=
  (r_authorized r = true -> r_recognized r = true) /\
  r_name r <> "" /\
  (r_imageReference r = None \/
   r_imageReference r = Some ("event_" +:+ eventId)).

(** [u'] is [u], or [u] with one more visit recorded. *)
Definition same_but_visits (u u' : Visitor) : Prop :=
  u' = u \/
  (v_isAuthorized u = true /\ exists now, u' = visit u now).

(** What a delivery may send over HTTP for an event: a fetch of the
    event's URL with the options of the service, when the event has no
    inline image; a post to the oracle of an image that is not empty,
    which is the inline image when the event has one. *)
Definition http_call_of (eventData : DoorbellEvent) (c : Call) : Prop :=
  match c with
  | HttpGet url cfg =>
      truthy_opt (ev_image eventData) = false /\
      ev_imageUrl eventData = Some url /\ url <> "" /\ cfg = get_config
  | HttpPost url img cfg =>
      url = "http://localhost:5001/recognize" /\ cfg = post_config /\
      img <> "" /\
      (truthy_opt (ev_image eventData) = true -> ev_image eventData = Some img)
  | _ => True
  end.

(** ** The stages, one by one *)

Lemma stage_frame_refl w : stage_frame w w.
Proof.
  repeat split. exists []. split; [by rewrite app_nil_r | constructor].
Qed.

Lemma stage_frame_trans w1 w2 w3 :
  stage_frame w1 w2 -> stage_frame w2 w3 -> stage_frame w1 w3.
Proof.
  intros (Hc1 & Hr1 & Hs1 & d1 & Ht1 & Hd1) (Hc2 & Hr2 & Hs2 & d2 & Ht2 & Hd2).
  repeat split; try congruence.
  exists (d1 ++ d2). split.
  - by rewrite Ht2, Ht1, app_assoc.
  - by apply Forall_app.
Qed.

Lemma stage_frame_log c ok w :
  early_call c = true -> stage_frame w (log c ok w).
Proof.
  intros Hc. repeat split. eexists. split; [reflexivity |].
  by repeat constructor.
Qed.

Lemma stage_frame_visitors vs w : stage_frame w (set_visitors vs w).
Proof.
  repeat split. exists []. split; [cbn; by rewrite app_nil_r | constructor].
Qed.

Lemma acquireImage_cases eventData w :
  acquireImage eventData w =
  if truthy_opt (ev_image eventData) then (Ok (ev_image eventData), w)
  else if truthy_opt (ev_imageUrl eventData) then
    let c := HttpGet (js_or (ev_imageUrl eventData) "") get_config in
    if rejects env (trace w) c then (Ok None, log c false w)
    else (Ok (Some (get_body env (trace w) (js_or (ev_imageUrl eventData) ""))),
          log c true w)
  else (Ok None, w).
Proof.
  unfold acquireImage.
  destruct (truthy_opt (ev_image eventData)); [reflexivity |].
  destruct (truthy_opt (ev_imageUrl eventData)); [| reflexivity].
  unfold try_catch, bind, axios_get, bind, request. cbn.
  by destruct (rejects env (trace w) _).
Qed.

Lemma callFacialRecognition_cases base64Image w :
  callFacialRecognition base64Image w =
  if truthy_opt base64Image then
    let c := HttpPost (faceRecognitionUrl +:+ "/recognize")
                      (js_or base64Image "") post_config in
    if rejects env (trace w) c then (Ok unavailable_outcome, log c false w)
    else (Ok (oracle_reply env (trace w) (js_or base64Image "")), log c true w)
  else (Ok no_image_outcome, w).
Proof.
  unfold callFacialRecognition.
  destruct (truthy_opt base64Image); [| reflexivity].
  unfold try_catch, bind, axios_post, bind, request. cbn.
  by destruct (rejects env (trace w) _).
Qed.

Lemma persist_and_notify_cases eventId r w :
  persist_and_notify eventId r w =
  if rejects env (trace w) (SinkSet eventId r)
  then (Throw FirebaseError, log (SinkSet eventId r) false w)
  else
    let w1 := set_result eventId r (log (SinkSet eventId r) true w) in
    let m := notification eventId r in
    if rejects env (trace w1) (Send m) then (Ok tt, log (Send m) false w1)
    else (Ok tt, push_sent m (log (Send m) true w1)).
Proof.
  unfold persist_and_notify, writeRecognitionResult, sendPushNotification,
    try_catch, bind, resultRef_set, messaging_send, bind, request, modify, throw.
  cbn.
  destruct (rejects env (trace w) _); [reflexivity |]. cbn.
  by destruct (rejects env _ (Send _)).
Qed.

(** Image acquisition never throws and touches nothing but the log. *)
Lemma acquireImage_total eventData w :
  exists img w1, acquireImage eventData w = (Ok img, w1) /\
                 visitors w1 = visitors w /\ stage_frame w w1.
Proof.
  rewrite acquireImage_cases.
  destruct (truthy_opt (ev_image eventData)).
  { eauto using stage_frame_refl. }
  destruct (truthy_opt (ev_imageUrl eventData)).
  2: { eauto using stage_frame_refl. }
  cbn. destruct (rejects env (trace w) _);
    do 2 eexists; (split; [reflexivity |]); split; try reflexivity;
    by apply stage_frame_log.
Qed.

(** The recognition stage never throws: a rejected call is caught. *)
Lemma callFacialRecognition_total base64Image w :
  exists o w1, callFacialRecognition base64Image w = (Ok o, w1) /\
               visitors w1 = visitors w /\ stage_frame w w1.
Proof.
  rewrite callFacialRecognition_cases.
  destruct (truthy_opt base64Image).
  2: { eauto using stage_frame_refl. }
  cbn. destruct (rejects env (trace w) _);
    do 2 eexists; (split; [reflexivity |]); split; try reflexivity;
    by apply stage_frame_log.
Qed.

Lemma Visitor_findOne_cases pattern re w :
  Visitor_findOne pattern re w =
  if rejects env (trace w) (FindOne pattern)
  then (Throw MongoError, log (FindOne pattern) false w)
  else (Ok (authorized_match re (visitors w)), log (FindOne pattern) true w).
Proof.
  unfold Visitor_findOne, bind, request.
  by destruct (rejects env (trace w) _).
Qed.

Lemma Visitor_save_cases v w :
  Visitor_save v w =
  if rejects env (trace w) (Save v)
  then (Throw MongoError, log (Save v) false w)
  else (Ok tt, set_visitors (store_doc v (visitors w)) (log (Save v) true w)).
Proof.
  unfold Visitor_save, bind, request, modify.
  by destruct (rejects env (trace w) _).
Qed.

(** One turn of the loop of [validateVisitor]. *)
Lemma lookup_loop_step first name rest re w :
  RegExp_i name = Some re ->
  lookup_loop first (name :: rest) w =
  if rejects env (trace w) (FindOne name)
  then (Throw MongoError, log (FindOne name) false w)
  else
    let w1 := log (FindOne name) true w in
    match authorized_match re (visitors w) with
    | None => lookup_loop first rest w1
    | Some visitor =>
        let visitor' := visit visitor (clock env (trace w1)) in
        if rejects env (trace w1) (Save visitor')
        then (Throw MongoError, log (Save visitor') false w1)
        else (Ok {| isAuthorized := true; visitorName := v_name visitor |},
              set_visitors (store_doc visitor' (visitors w))
                           (log (Save visitor') true w1))
    end.
Proof.
  intros Hre. cbn [lookup_loop]. rewrite Hre.
  unfold bind at 1. rewrite Visitor_findOne_cases.
  destruct (rejects env (trace w) _); [reflexivity |]. cbn zeta.
  destruct (authorized_match re (visitors w)) as [v |]; [| reflexivity].
  unfold bind, new_Date. rewrite Visitor_save_cases.
  by destruct (rejects env _ (Save _)).
Qed.

Lemma lookup_loop_bad_pattern first name rest w :
  RegExp_i name = None ->
  lookup_loop first (name :: rest) w = (Throw SyntaxError, w).
Proof. intros Hre. cbn [lookup_loop]. by rewrite Hre. Qed.

Lemma lookup_loop_frame first names :
  forall w res w', lookup_loop first names w = (res, w') -> stage_frame w w'.
Proof.
  induction names as [| name rest IH]; intros w res w' Hrun.
  - inversion Hrun; subst. apply stage_frame_refl.
  - destruct (RegExp_i name) as [re |] eqn:Hre.
    2: { rewrite lookup_loop_bad_pattern in Hrun by done.
         inversion Hrun; subst. apply stage_frame_refl. }
    rewrite (lookup_loop_step _ _ _ re) in Hrun by done.
    destruct (rejects env (trace w) _).
    { inversion Hrun; subst. by apply stage_frame_log. }
    cbn zeta in Hrun.
    destruct (authorized_match re (visitors w)) as [v |].
    + apply stage_frame_trans with (log (FindOne name) true w);
        [by apply stage_frame_log |].
      destruct (rejects env _ (Save _)); inversion Hrun; subst.
      * by apply stage_frame_log.
      * eapply stage_frame_trans; [| apply stage_frame_visitors].
        by apply stage_frame_log.
    + apply stage_frame_trans with (log (FindOne name) true w);
        [by apply stage_frame_log | by eapply IH].
Qed.

(** A rejected store call ends the loop with an exception. *)
Lemma lookup_loop_rejected first names :
  forall w res w', lookup_loop first names w = (res, w') ->
  exists d, trace w' = trace w ++ d /\
            ((exists e, In e d /\ e_ok e = false) -> exists err, res = Throw err).
Proof.
  induction names as [| name rest IH]; intros w res w' Hrun.
  - inversion Hrun; subst. exists []. split; [by rewrite app_nil_r |].
    by intros (e & [] & _).
  - destruct (RegExp_i name) as [re |] eqn:Hre.
    2: { rewrite lookup_loop_bad_pattern in Hrun by done.
         inversion Hrun; subst. exists []. split; [by rewrite app_nil_r |].
         by intros (e & [] & _). }
    rewrite (lookup_loop_step _ _ _ re) in Hrun by done.
    destruct (rejects env (trace w) _).
    { inversion Hrun; subst. eexists. split; [reflexivity | eauto]. }
    cbn zeta in Hrun.
    destruct (authorized_match re (visitors w)) as [v |].
    + destruct (rejects env _ (Save _)); inversion Hrun; subst; cbn.
      * eexists. split; [by rewrite <- app_assoc | eauto].
      * eexists. split; [by rewrite <- app_assoc |].
        intros (e & [<- | [<- | []]] & He); discriminate.
    + destruct (IH _ _ _ Hrun) as (d & Hd & Hthrow).
      exists ({| e_call := FindOne name; e_ok := true |} :: d). split.
      * rewrite Hd. cbn. by rewrite <- app_assoc.
      * intros (e & [<- | Hin] & He); [discriminate | eauto].
Qed.

(** The loop on a list whose first hit is [c]: the candidates before it
    are looked up in vain, [c] is looked up, the visitor found is saved
    with its visit recorded, and the candidates after [c] are never
    looked up. *)
Lemma lookup_loop_hit first post c re v :
  store_reachable ->
  RegExp_i c = Some re ->
  forall pre w,
  Forall (no_hit (visitors w)) pre ->
  authorized_match re (visitors w) = Some v ->
  exists now w',
    lookup_loop first (pre ++ c :: post) w =
      (Ok {| isAuthorized := true; visitorName := v_name v |}, w') /\
    now = clock env (trace w ++ lookups (pre ++ [c])) /\
    visitors w' = store_doc (visit v now) (visitors w) /\
    trace w' = trace w ++ lookups (pre ++ [c])
      ++ [{| e_call := Save (visit v now); e_ok := true |}].
Proof.
  intros Hup Hre. induction pre as [| p pre IH]; intros w Hpre Hhit.
  - cbn [app]. rewrite (lookup_loop_step _ _ _ re) by done.
    rewrite Hup by done. cbn zeta. rewrite Hhit, Hup by done.
    do 2 eexists. split; [reflexivity |]. split; [reflexivity |].
    split; [reflexivity |]. cbn. by rewrite <- app_assoc.
  - inversion Hpre as [| ? ? (rp & Hrp & Hnone) Hrest]; subst.
    cbn [app]. rewrite (lookup_loop_step _ _ _ rp) by done.
    rewrite Hup by done. cbn zeta. rewrite Hnone.
    destruct (IH (log (FindOne p) true w) Hrest Hhit)
      as (now & w' & -> & Hnow & Hv & Ht).
    exists now, w'. split; [reflexivity |].
    cbn in Hnow, Ht. rewrite <- app_assoc in Hnow, Ht. by repeat split.
Qed.

(** The loop on a list holding a pattern the constructor rejects, when
    no candidate before it has a hit: it throws, from a store error on
    the way or from the constructor, and saves nothing. *)
Lemma lookup_loop_bad first post bad :
  RegExp_i bad = None ->
  forall pre w,
  Forall (no_hit (visitors w)) pre ->
  exists err w',
    lookup_loop first (pre ++ bad :: post) w = (Throw err, w') /\
    visitors w' = visitors w.
Proof.
  intros Hbad. induction pre as [| p pre IH]; intros w Hpre.
  - cbn [app]. rewrite lookup_loop_bad_pattern by done. eauto.
  - inversion Hpre as [| ? ? (rp & Hrp & Hnone) Hrest]; subst.
    cbn [app]. rewrite (lookup_loop_step _ _ _ rp) by done.
    destruct (rejects env (trace w) _); [eauto |].
    cbn zeta. rewrite Hnone.
    destruct (IH (log (FindOne p) true w) Hrest) as (err & w' & -> & Hv).
    eauto.
Qed.

Lemma validateVisitor_unauthenticated o w :
  success o = false \/ authenticated o = false ->
  validateVisitor o w =
  (Ok {| isAuthorized := false;
         visitorName := if opt_includes "unclassified" (message o)
                        then "unclassified" else "unknown" |}, w).
Proof.
  intros H. unfold validateVisitor.
  by destruct H as [-> | ->]; destruct (success o); cbn.
Qed.

Lemma validateVisitor_names o first rest w :
  success o = true -> authenticated o = true ->
  recognized_names o = Some (first :: rest) ->
  validateVisitor o w =
  try_catch (lookup_loop first (first :: rest))
            (fun _ => ret (store_fallback first)) w.
Proof.
  intros Hs Ha Hn. unfold validateVisitor. by rewrite Hs, Ha, Hn.
Qed.

(** Validation never throws, and touches only the visitors and the log. *)
Lemma validateVisitor_total o w :
  exists val w', validateVisitor o w = (Ok val, w') /\ stage_frame w w'.
Proof.
  unfold validateVisitor.
  destruct (negb (success o) || negb (authenticated o)).
  { eauto using stage_frame_refl. }
  destruct (default [] (recognized_names o)) as [| first rest].
  { eauto using stage_frame_refl. }
  unfold try_catch.
  destruct (lookup_loop first (first :: rest) w) as [[val | err] w'] eqn:Hrun;
    apply lookup_loop_frame in Hrun; eauto.
Qed.

(** The run, once the producer timestamp resolves: the three stages
    return, and the rest is persistence and notification. *)
Lemma process_stages eventId eventData w ts img w1 o w2 val w3 :
  actualTimestamp eventData w = (Ok ts, w) ->
  acquireImage eventData w = (Ok img, w1) ->
  callFacialRecognition img w1 = (Ok o, w2) ->
  validateVisitor o w2 = (Ok val, w3) ->
  processDoorbellEvent eventId eventData w =
  persist_and_notify eventId
    (finalResult_of eventId eventData ts img o val (clock env (trace w3))) w3.
Proof.
  intros Hts Himg Ho Hval.
  unfold processDoorbellEvent, bind. by rewrite Hts, Himg, Ho, Hval.
Qed.

Lemma actualTimestamp_pure eventData w :
  actualTimestamp eventData w = (Throw RangeError, w) \/
  exists ts, actualTimestamp eventData w = (Ok ts, w).
Proof.
  unfold actualTimestamp.
  destruct (truthy_opt (ev_timestamp eventData)); [right; by eexists |].
  destruct (time_value (ev_createdAt eventData)); [right; by eexists | by left].
Qed.

(** Every run of [processDoorbellEvent]: it throws at the timestamp, or
    it goes through the stages and ends in persistence and notification. *)
Lemma process_cases eventId eventData w :
  processDoorbellEvent eventId eventData w = (Throw RangeError, w) \/
  exists r w3,
    stage_frame w w3 /\
    processDoorbellEvent eventId eventData w = persist_and_notify eventId r w3.
Proof.
  destruct (actualTimestamp_pure eventData w) as [Hts | (ts & Hts)].
  { left. unfold processDoorbellEvent, bind. by rewrite Hts. }
  right.
  destruct (acquireImage_total eventData w) as (img & w1 & Himg & _ & F1).
  destruct (callFacialRecognition_total img w1) as (o & w2 & Ho & _ & F2).
  destruct (validateVisitor_total o w2) as (val & w3 & Hval & F3).
  do 2 eexists. split; [| by eapply process_stages].
  eauto using stage_frame_trans.
Qed.

Lemma handed_to_sink eventId eventData w r w3 :
  processDoorbellEvent eventId eventData w = persist_and_notify eventId r w3 ->
  result_handed_to_sink eventId eventData w r w3.
Proof.
  intros Hrun. unfold result_handed_to_sink. cbn zeta. rewrite Hrun.
  rewrite persist_and_notify_cases.
  destruct (rejects env (trace w3) _); [done |]. cbn zeta.
  destruct (rejects env _ (Send _)); cbn.
  - split; [done |]. split; [apply lookup_insert_eq |].
    exists false. by rewrite <- app_assoc.
  - split; [done |]. split; [apply lookup_insert_eq |].
    exists true. by rewrite <- app_assoc.
Qed.

Lemma ref_update_cases eventId flag w :
  ref_update eventId flag w =
  if rejects env (trace w) (ClaimUpdate eventId flag)
  then (Throw FirebaseError, log (ClaimUpdate eventId flag) false w)
  else (Ok tt, set_claim eventId flag (log (ClaimUpdate eventId flag) true w)).
Proof.
  unfold ref_update, bind, request, modify.
  by destruct (rejects env (trace w) _).
Qed.

(** The listener on an event that is not marked processed. *)
Lemma onChildAdded_unclaimed eventId eventData w :
  ev_processed eventData <> Some true ->
  onChildAdded eventId eventData w =
  try_catch (guarded_run eventId eventData)
            (fun _ => ref_update eventId false) w.
Proof.
  intros Hp. unfold onChildAdded, guarded_run.
  by destruct (ev_processed eventData) as [[|] |].
Qed.

(** The outcomes of the persistence stage. *)
Lemma persist_and_notify_outcome eventId r w3 res w' :
  persist_and_notify eventId r w3 = (res, w') ->
  (res = Throw FirebaseError /\
   w' = log (SinkSet eventId r) false w3) \/
  (res = Ok tt /\ exists delivered,
     trace w' = trace w3 ++
       [{| e_call := SinkSet eventId r; e_ok := true |};
        {| e_call := Send (notification eventId r); e_ok := delivered |}]).
Proof.
  rewrite persist_and_notify_cases.
  destruct (rejects env (trace w3) _).
  { intros [= <- <-]. by left. }
  cbn zeta. destruct (rejects env _ (Send _)); intros [= <- <-]; right;
    (split; [done |]); eexists; cbn; by rewrite <- app_assoc.
Qed.

(** The outcomes of the [try] block of the listener, with the calls it
    logged. A run that throws has dispatched no notification; a run that
    returns has no rejected write to the Result Sink behind it. *)
Lemma guarded_run_outcome eventId eventData w res w1 :
  guarded_run eventId eventData w = (res, w1) ->
  exists d, trace w1 = trace w ++ d /\
    match res with
    | Throw _ =>
        sent w1 = sent w /\ Forall (fun e => is_send (e_call e) = false) d
    | Ok _ =>
        Forall (fun e => forall i r, e <> {| e_call := SinkSet i r; e_ok := false |}) d
    end.
Proof.
  unfold guarded_run, bind. rewrite ref_update_cases.
  destruct (rejects env (trace w) _).
  { intros [= <- <-]. eexists. split; [reflexivity |]. split; [done |].
    by repeat constructor. }
  set (w0 := set_claim eventId true (log (ClaimUpdate eventId true) true w)).
  destruct (process_cases eventId eventData w0) as [-> | (r & w3 & F & ->)].
  { intros [= <- <-]. eexists. split; [reflexivity |]. split; [done |].
    by repeat constructor. }
  destruct F as (_ & _ & Hsent & d & Hd & Hearly).
  intros Hrun. apply persist_and_notify_outcome in Hrun
    as [[-> ->] | [-> (delivered & Ht)]].
  - eexists. split.
    { cbn. rewrite Hd. cbn. rewrite <- !app_assoc. reflexivity. }
    split; [cbn; by rewrite Hsent |].
    constructor; [done |]. apply Forall_app. split; [| by repeat constructor].
    eapply Forall_impl; [exact Hearly |]. intros e He. cbn in He.
    by destruct (e_call e).
  - eexists. split.
    { rewrite Ht, Hd. cbn. rewrite <- !app_assoc. reflexivity. }
    constructor; [done |]. apply Forall_app. split; [| by repeat constructor].
    eapply Forall_impl; [exact Hearly |]. intros e He i r0 ->. done.
Qed.

(** [visitor.save()] changes the saved document and no other. *)
Lemma doc_by_id_saved v' vs :
  (exists v, In v vs /\ v_id v = v_id v') ->
  doc_by_id (v_id v') (store_doc v' vs) = Some v'.
Proof.
  intros (v & Hin & Hid). induction vs as [| u vs IH]; [done |].
  cbn. destruct (N.eqb (v_id u) (v_id v')) eqn:Hu.
  - by rewrite N.eqb_refl.
  - rewrite Hu. apply IH. destruct Hin as [-> | Hin]; [| done].
    rewrite Hid, N.eqb_refl in Hu. discriminate.
Qed.

Lemma doc_by_id_other v' vs i :
  i <> v_id v' -> doc_by_id i (store_doc v' vs) = doc_by_id i vs.
Proof.
  intros Hi. induction vs as [| u vs IH]; [done |].
  cbn. destruct (N.eqb (v_id u) (v_id v')) eqn:Hu.
  - apply N.eqb_eq in Hu. rewrite Hu.
    destruct (N.eqb (v_id v') i) eqn:Hv.
    + apply N.eqb_eq in Hv. congruence.
    + exact IH.
  - destruct (N.eqb (v_id u) i); [done | exact IH].
Qed.

Lemma authorized_match_In re vs v :
  authorized_match re vs = Some v ->
  In v vs /\ v_isAuthorized v = true /\ re_test re (v_name v) = true.
Proof.
  intros H. apply List.find_some in H as [Hin Hb].
  apply andb_true_iff in Hb. tauto.
Qed.

(** ** The claim guard *)

(** C3. An event delivered with its claim already set
    ([processed === true]) makes the listener return at once, leaving the
    world as it was, log included: no claim update, no image fetch, no
    oracle call, no write to the Result Sink and no notification. *)
Theorem redelivery_of_claimed_event_is_noop eventId eventData w :
  ev_processed eventData = Some true ->
  onChildAdded eventId eventData w = (Ok tt, w).
Proof. intros Hp. unfold onChildAdded. by rewrite Hp. Qed.

(** An event with neither [timestamp] nor [createdAt] stops the run at
    line 71, before anything else happens. *)
Lemma process_without_timestamps eventId eventData w :
  ev_timestamp eventData = None -> ev_createdAt eventData = None ->
  processDoorbellEvent eventId eventData w = (Throw RangeError, w).
Proof.
  intros Hts Hca. unfold processDoorbellEvent, bind, actualTimestamp.
  by rewrite Hts, Hca.
Qed.

(** The listener on such an event: the claim is set, the run throws, the
    claim is reset; nothing else is called or changed. *)
Lemma listener_without_timestamps eventId eventData w :
  ev_timestamp eventData = None -> ev_createdAt eventData = None ->
  ev_processed eventData <> Some true ->
  exists marked reset res w',
    onChildAdded eventId eventData w = (res, w') /\
    trace w' = trace w ++
      [{| e_call := ClaimUpdate eventId true; e_ok := marked |};
       {| e_call := ClaimUpdate eventId false; e_ok := reset |}] /\
    (reset = true -> claims w' !! eventId = Some false) /\
    results w' = results w /\ visitors w' = visitors w /\ sent w' = sent w.
Proof.
  intros Hts Hca Hp. rewrite onChildAdded_unclaimed by done.
  unfold try_catch, guarded_run, bind. rewrite ref_update_cases.
  destruct (rejects env (trace w) _) eqn:Hset.
  - rewrite ref_update_cases.
    destruct (rejects env _ (ClaimUpdate eventId false)) eqn:Hreset;
      do 4 eexists; (split; [reflexivity |]); cbn; rewrite <- app_assoc;
      (split; [reflexivity |]); (split; [| done]).
    + done.
    + intros _. apply lookup_insert_eq.
  - rewrite process_without_timestamps by done. rewrite ref_update_cases.
    destruct (rejects env _ (ClaimUpdate eventId false)) eqn:Hreset;
      do 4 eexists; (split; [reflexivity |]); cbn; rewrite <- app_assoc;
      (split; [reflexivity |]); (split; [| done]).
    + done.
    + intros _. apply lookup_insert_eq.
Qed.

Lemma listener_without_timestamps_results eventId eventData w :
  ev_timestamp eventData = None -> ev_createdAt eventData = None ->
  results (snd (onChildAdded eventId eventData w)) = results w.
Proof.
  intros Hts Hca.
  destruct (decide (ev_processed eventData = Some true)) as [Hp | Hp].
  - unfold onChildAdded. by rewrite Hp.
  - destruct (listener_without_timestamps eventId eventData w Hts Hca Hp)
      as (? & ? & res & w' & -> & _ & _ & Hr & _). exact Hr.
Qed.

(** C10. For an event with neither a [timestamp] nor a [createdAt]
    field, processing throws a RangeError in a world it has not touched:
    no image was examined and no call was made. The listener, when the
    event is not marked processed, logs the claim update and then the
    reset and nothing else, and the reset, when the database accepts it,
    leaves the claim unset. However many times the event is delivered, the
    recognition results stay as they were: none is ever written for it. *)
Theorem event_without_timestamps_is_never_resolved eventId eventData w :
  ev_timestamp eventData = None -> ev_createdAt eventData = None ->
  processDoorbellEvent eventId eventData w = (Throw RangeError, w) /\
  (ev_processed eventData <> Some true ->
   exists marked reset res w',
     onChildAdded eventId eventData w = (res, w') /\
     trace w' = trace w ++
       [{| e_call := ClaimUpdate eventId true; e_ok := marked |};
        {| e_call := ClaimUpdate eventId false; e_ok := reset |}] /\
     (reset = true -> claims w' !! eventId = Some false) /\
     results w' = results w /\ visitors w' = visitors w /\ sent w' = sent w) /\
  (forall n, results (deliver_times n eventId eventData w) = results w).
Proof.
  intros Hts Hca. split; [by apply process_without_timestamps |].
  split; [by apply listener_without_timestamps |].
  intros n. revert w. induction n as [| n IH]; intros w; [done |].
  cbn [deliver_times]. rewrite IH.
  by apply listener_without_timestamps_results.
Qed.

(** C4. Take an event that is not marked processed and the run of the
    [try] block of the listener on it. If a write to the Result Sink was
    rejected during that run, the run threw. And whenever the run threw,
    the listener asks the database to reset the claim as its last call;
    the claim is unset when that update is accepted; and the failed run
    dispatched no notification: no [send] call is in the log of this
    delivery and the messages taken by the channel are those of before. *)
Theorem failed_run_resets_claim eventId eventData w res w1 :
  ev_processed eventData <> Some true ->
  guarded_run eventId eventData w = (res, w1) ->
  ((exists d i r, trace w1 = trace w ++ d /\
                  In {| e_call := SinkSet i r; e_ok := false |} d) ->
   exists err, res = Throw err) /\
  ((exists err, res = Throw err) ->
   exists (reset : bool) w' d,
     onChildAdded eventId eventData w =
       (if reset then Ok tt else Throw FirebaseError, w') /\
     trace w' = trace w1 ++
       [{| e_call := ClaimUpdate eventId false; e_ok := reset |}] /\
     (reset = true -> claims w' !! eventId = Some false) /\
     sent w' = sent w /\
     trace w' = trace w ++ d /\
     Forall (fun e => is_send (e_call e) = false) d).
Proof.
  intros Hp Hrun.
  destruct (guarded_run_outcome _ _ _ _ _ Hrun) as (d & Hd & Hshape).
  split.
  - intros (d' & i & r & Hd' & Hin).
    rewrite Hd in Hd'. apply app_inv_head in Hd'. subst d'.
    destruct res as [[] | err]; [| by eexists].
    rewrite Forall_forall in Hshape.
    apply list_elem_of_In in Hin. by destruct (Hshape _ Hin i r).
  - intros (err & ->). destruct Hshape as (Hsent & Hnosend).
    rewrite onChildAdded_unclaimed by done.
    unfold try_catch. rewrite Hrun, ref_update_cases.
    destruct (rejects env (trace w1) _).
    + exists false. do 2 eexists. split; [reflexivity |]. cbn.
      split; [reflexivity |]. split; [done |]. split; [done |].
      rewrite Hd, <- app_assoc. split; [reflexivity |].
      apply Forall_app. split; [done | by repeat constructor].
    + exists true. do 2 eexists. split; [reflexivity |]. cbn.
      split; [reflexivity |]. split; [intros _; apply lookup_insert_eq |].
      split; [done |].
      rewrite Hd, <- app_assoc. split; [reflexivity |].
      apply Forall_app. split; [done | by repeat constructor].
Qed.

(** ** Recognition and authorization *)

Lemma final_name_unclassified eventId eventData ts img o now flag :
  r_name (finalResult_of eventId eventData ts img o
            {| isAuthorized := flag;
               visitorName := if opt_includes "unclassified" (message o)
                              then "unclassified" else "unknown" |} now)
  = if opt_includes "unclassified" (message o) then "unclassified" else "unknown".
Proof. cbn. by destruct (opt_includes _ _). Qed.

Lemma js_or_nonempty s d : s <> "" -> js_or (Some s) d = s.
Proof.
  intros Hs. cbn. unfold truthy.
  destruct (String.eqb s "") eqn:E; [| done].
  by apply String.eqb_eq in E.
Qed.

Lemma final_name_fallback eventId eventData ts img o first now :
  r_name (finalResult_of eventId eventData ts img o (store_fallback first) now)
  = if truthy first then first else "unknown".
Proof. cbn. destruct (truthy first) eqn:E; [by rewrite E | done]. Qed.

(** C2. When the call to the Recognition Oracle is rejected (timeout,
    unreachable, non-2xx), the recognition stage does not throw: it
    returns the outcome with [success = false]. The run then reaches the
    persistence stage with a result that has [recognized = false], the
    name "unclassified" and [authorized = false]; once the sink has
    stored it, the notification is dispatched. *)
Theorem oracle_fault_is_absorbed eventId eventData w ts img w1 :
  actualTimestamp eventData w = (Ok ts, w) ->
  acquireImage eventData w = (Ok img, w1) ->
  truthy_opt img = true ->
  rejects env (trace w1) (recognize_call img) = true ->
  let w2 := log (recognize_call img) false w1 in
  callFacialRecognition img w1 = (Ok unavailable_outcome, w2) /\
  success unavailable_outcome = false /\
  exists r,
    r_recognized r = false /\ r_name r = "unclassified" /\
    r_authorized r = false /\
    result_handed_to_sink eventId eventData w r w2.
Proof.
  intros Hts Himg Htruthy Hdown w2.
  assert (Ho : callFacialRecognition img w1 = (Ok unavailable_outcome, w2)).
  { rewrite callFacialRecognition_cases, Htruthy. cbn zeta.
    fold (recognize_call img). by rewrite Hdown. }
  split; [exact Ho |]. split; [done |].
  eexists. repeat split;
    [| | | apply handed_to_sink; eapply process_stages; try eassumption;
           by apply validateVisitor_unauthenticated; left]; reflexivity.
Qed.

(** C5, as the service has it. When the outcome of the recognition stage
    has [success = false] or [authenticated = false], the result that reaches the persistence
    stage has [authorized = false] and the name "unclassified" if the
    message of the outcome contains "unclassified", "unknown" if not.
    When the outcome claims success and authentication but names nobody,
    the result has the name "unknown" and [authorized = false]. In both
    cases validation leaves the world as the recognition stage left it. *)
Theorem unauthenticated_outcome_result eventId eventData w ts img w1 o w2 :
  actualTimestamp eventData w = (Ok ts, w) ->
  acquireImage eventData w = (Ok img, w1) ->
  callFacialRecognition img w1 = (Ok o, w2) ->
  (success o = false \/ authenticated o = false ->
   exists r,
     result_handed_to_sink eventId eventData w r w2 /\
     r_authorized r = false /\
     r_name r = if opt_includes "unclassified" (message o)
                then "unclassified" else "unknown") /\
  (success o = true -> authenticated o = true ->
   default [] (recognized_names o) = [] ->
   exists r,
     result_handed_to_sink eventId eventData w r w2 /\
     r_authorized r = false /\ r_name r = "unknown").
Proof.
  intros Hts Himg Ho. split.
  - intros Hno. eexists. split; [| split].
    + apply handed_to_sink. eapply process_stages; try eassumption.
      by apply validateVisitor_unauthenticated.
    + reflexivity.
    + apply final_name_unclassified.
  - intros Hs Ha Hnames. eexists. split; [| split].
    + apply handed_to_sink. eapply process_stages; try eassumption.
      unfold validateVisitor. rewrite Hs, Ha, Hnames. reflexivity.
    + reflexivity.
    + reflexivity.
Qed.

(** C1, as the service has it. The outcome claims success and
    authentication and lists the candidates [pre ++ c :: post], where the
    lookup of [c] finds the authorized visitor [v] and the candidates
    before it are patterns whose lookups find none; the store answers its
    calls. Then validation looks up the
    candidates of [pre], then [c], and stops: it saves [v] with its
    visit recorded and looks up none of [post]. The saved document has
    the visit count of [v] plus one and the clock's reading as last
    visit; every other document is as before. The result that reaches
    the persistence stage has [authorized = true] and the stored name of
    [v] as its name. *)
Theorem first_authorized_match_wins
    eventId eventData w ts img w1 o w2 pre c post re v :
  actualTimestamp eventData w = (Ok ts, w) ->
  acquireImage eventData w = (Ok img, w1) ->
  callFacialRecognition img w1 = (Ok o, w2) ->
  success o = true -> authenticated o = true ->
  recognized_names o = Some (pre ++ c :: post) ->
  store_reachable ->
  Forall (no_hit (visitors w)) pre ->
  RegExp_i c = Some re ->
  authorized_match re (visitors w) = Some v ->
  v_name v <> "" ->
  exists w3 r,
    let now := clock env (trace w2 ++ lookups (pre ++ [c])) in
    validateVisitor o w2 =
      (Ok {| isAuthorized := true; visitorName := v_name v |}, w3) /\
    trace w3 = trace w2 ++ lookups (pre ++ [c])
                 ++ [{| e_call := Save (visit v now); e_ok := true |}] /\
    doc_by_id (v_id v) (visitors w3) = Some (visit v now) /\
    v_visitCount (visit v now) = v_visitCount v + 1 /\
    v_lastVisit (visit v now) = Some now /\
    (forall i, i <> v_id v -> doc_by_id i (visitors w3) = doc_by_id i (visitors w)) /\
    r_authorized r = true /\ r_name r = v_name v /\ r_recognized r = true /\
    result_handed_to_sink eventId eventData w r w3.
Proof.
  intros Hts Himg Ho Hs Ha Hnames Hup Hpre Hre Hhit Hname.
  destruct (acquireImage_total eventData w) as (? & ? & Himg' & Hv1 & _).
  rewrite Himg in Himg'. injection Himg' as <- <-.
  destruct (callFacialRecognition_total img w1) as (? & ? & Ho' & Hv2 & _).
  rewrite Ho in Ho'. injection Ho' as <- <-.
  assert (Hvis : visitors w2 = visitors w) by congruence.
  rewrite <- Hvis in Hpre, Hhit.
  destruct (lookup_loop_hit (hd c pre) post c re v Hup Hre pre w2 Hpre Hhit)
    as (now & w3 & Hloop & -> & Hstore & Htrace).
  assert (Hval : validateVisitor o w2 =
                 (Ok {| isAuthorized := true; visitorName := v_name v |}, w3)).
  { destruct pre as [| p pre'].
    - rewrite (validateVisitor_names o c post) by done.
      unfold try_catch. cbn [app hd] in Hloop. by rewrite Hloop.
    - rewrite (validateVisitor_names o p (pre' ++ c :: post)) by done.
      unfold try_catch. cbn [app hd] in Hloop. by rewrite Hloop. }
  exists w3. eexists. cbn zeta.
  split; [exact Hval |]. split; [exact Htrace |].
  split.
  { rewrite Hstore. apply (doc_by_id_saved (visit v _)).
    exists v. split; [| done]. by apply authorized_match_In in Hhit as [? _]. }
  split; [done |]. split; [done |].
  split.
  { intros i Hi. rewrite Hstore, <- Hvis. by apply doc_by_id_other. }
  split; [| split; [| split]];
    [| | | apply handed_to_sink; by eapply process_stages].
  - reflexivity.
  - cbn [r_name finalResult_of visitorName]. by apply js_or_nonempty.
  - cbn. by rewrite Hs, Ha.
Qed.

(** Validation when a call to the Authorization Store is rejected: the
    [catch] block answers. *)
Lemma validateVisitor_store_error o w first rest res w' d e :
  success o = true -> authenticated o = true ->
  recognized_names o = Some (first :: rest) ->
  validateVisitor o w = (res, w') ->
  trace w' = trace w ++ d -> In e d -> e_ok e = false ->
  res = Ok (store_fallback first).
Proof.
  intros Hs Ha Hnames Hval Hd Hin Hbad.
  rewrite (validateVisitor_names o first rest) in Hval by done.
  unfold try_catch in Hval.
  destruct (lookup_loop first (first :: rest) w) as [[val | err] wl] eqn:Hloop.
  - injection Hval as <- <-.
    destruct (lookup_loop_rejected _ _ _ _ _ Hloop) as (d' & Hd' & Hthrow).
    rewrite Hd in Hd'. apply app_inv_head in Hd'. subst d'.
    destruct Hthrow as (err & Herr); [eauto | discriminate].
  - by injection Hval as <- <-.
Qed.

(** C7, as the service has it. The outcome claims success and
    authentication and lists [first :: rest]; during validation a call to
    the Authorization Store (a lookup or a save) is rejected. Then
    validation does not throw: it answers [authorized = false] with the
    name [first || 'unknown'], which is [first] unless [first] is the
    empty string. The run goes on to the persistence stage with that
    name and [authorized = false], and to the notification once the sink
    has stored the result. *)
Theorem store_error_falls_back
    eventId eventData w ts img w1 o w2 first rest res w3 d e :
  actualTimestamp eventData w = (Ok ts, w) ->
  acquireImage eventData w = (Ok img, w1) ->
  callFacialRecognition img w1 = (Ok o, w2) ->
  success o = true -> authenticated o = true ->
  recognized_names o = Some (first :: rest) ->
  validateVisitor o w2 = (res, w3) ->
  trace w3 = trace w2 ++ d ->
  In e d -> store_call (e_call e) = true -> e_ok e = false ->
  res = Ok {| isAuthorized := false;
              visitorName := if truthy first then first else "unknown" |} /\
  exists r,
    r_authorized r = false /\
    r_name r = (if truthy first then first else "unknown") /\
    (first <> "" -> r_name r = first) /\
    result_handed_to_sink eventId eventData w r w3.
Proof.
  intros Hts Himg Ho Hs Ha Hnames Hval Hd Hin _ Hbad.
  assert (Hres : res = Ok (store_fallback first))
    by (by eapply validateVisitor_store_error).
  subst res. split; [done |].
  eexists. split; [| split; [| split]];
    [| | | apply handed_to_sink; by eapply process_stages].
  - reflexivity.
  - apply final_name_fallback.
  - intros Hne. rewrite final_name_fallback.
    unfold truthy. destruct (String.eqb first "") eqn:E; [| done].
    by apply String.eqb_eq in E.
Qed.

(** A candidate the constructor rejects, reached without a hit before
    it: validation answers with the value of the [catch] block, the one
    it gives when the store is unreachable, and saves nothing. *)
Lemma rejected_pattern_falls_back o w pre bad post :
  success o = true -> authenticated o = true ->
  recognized_names o = Some (pre ++ bad :: post) ->
  RegExp_i bad = None ->
  Forall (no_hit (visitors w)) pre ->
  exists w',
    validateVisitor o w = (Ok (store_fallback (hd bad pre)), w') /\
    visitors w' = visitors w.
Proof.
  intros Hs Ha Hnames Hbad Hpre.
  destruct (lookup_loop_bad (hd bad pre) post bad Hbad pre w Hpre)
    as (err & w' & Hloop & Hv).
  exists w'. split; [| exact Hv].
  destruct pre as [| p pre'].
  - rewrite (validateVisitor_names o bad post) by done.
    unfold try_catch. cbn [app hd] in Hloop. by rewrite Hloop.
  - rewrite (validateVisitor_names o p (pre' ++ bad :: post)) by done.
    unfold try_catch. cbn [app hd] in Hloop. by rewrite Hloop.
Qed.

(** A lookup that is answered returns the first authorized visitor whose
    name the compiled pattern matches. *)
Lemma lookup_is_a_pattern_match pattern re w :
  rejects env (trace w) (FindOne pattern) = false ->
  fst (Visitor_findOne pattern re w) =
  Ok (List.find (fun v => v_isAuthorized v && re_test re (v_name v)) (visitors w)).
Proof. intros Hup. rewrite Visitor_findOne_cases. by rewrite Hup. Qed.

(** ** Image acquisition *)

(** An event with no image and no URL whose timestamp resolves: no call
    is made before the persistence stage, and the result is the
    unclassified one. *)
Lemma imageless_event_with_timestamp eventId eventData w ts :
  truthy_opt (ev_image eventData) = false ->
  truthy_opt (ev_imageUrl eventData) = false ->
  actualTimestamp eventData w = (Ok ts, w) ->
  acquireImage eventData w = (Ok None, w) /\
  callFacialRecognition None w = (Ok no_image_outcome, w) /\
  exists r,
    r_recognized r = false /\ r_name r = "unclassified" /\
    r_authorized r = false /\ r_imageReference r = None /\
    result_handed_to_sink eventId eventData w r w.
Proof.
  intros Hi Hu Hts.
  assert (Himg : acquireImage eventData w = (Ok None, w))
    by (by rewrite acquireImage_cases, Hi, Hu).
  split; [exact Himg |]. split; [done |].
  eexists. repeat split;
    [| | | | apply handed_to_sink; eapply process_stages; try eassumption;
             [reflexivity | by apply validateVisitor_unauthenticated; left]];
    reflexivity.
Qed.

(** The request for an image given by URL, and what a rejected one
    (a timeout would be one) leads to. *)
Lemma image_fetch_request eventData w :
  truthy_opt (ev_image eventData) = false ->
  truthy_opt (ev_imageUrl eventData) = true ->
  let c := HttpGet (js_or (ev_imageUrl eventData) "") get_config in
  exists img ok,
    acquireImage eventData w = (Ok img, log c ok w) /\
    (ok = false -> img = None).
Proof.
  intros Hi Hu c. rewrite acquireImage_cases, Hi, Hu. cbn zeta.
  destruct (rejects env (trace w) _); do 2 eexists; (split; [reflexivity |]);
    done.
Qed.

(** ** Further properties of the pipeline *)

(** The producer timestamp fails to resolve exactly when [timestamp] is
    absent or empty and [createdAt] gives no valid date. *)
Lemma actualTimestamp_fails eventData w :
  truthy_opt (ev_timestamp eventData) = false ->
  time_value (ev_createdAt eventData) = None ->
  actualTimestamp eventData w = (Throw RangeError, w).
Proof. intros Ht Hc. unfold actualTimestamp. by rewrite Ht, Hc. Qed.

Lemma actualTimestamp_resolves eventData w :
  truthy_opt (ev_timestamp eventData) = true \/
  time_value (ev_createdAt eventData) <> None ->
  exists ts, actualTimestamp eventData w = (Ok ts, w).
Proof.
  intros H. unfold actualTimestamp.
  destruct (truthy_opt (ev_timestamp eventData)); [by eexists |].
  destruct (time_value (ev_createdAt eventData)); [by eexists |].
  by destruct H.
Qed.

(** The try block of the listener, by what it leaves behind. *)
Lemma guarded_run_states eventId eventData w res w1 :
  guarded_run eventId eventData w = (res, w1) ->
  (forall j, j <> eventId ->
     results w1 !! j = results w !! j /\ claims w1 !! j = claims w !! j) /\
  match res with
  | Ok _ =>
      claims w1 !! eventId = Some true /\
      exists r, results w1 !! eventId = Some r
  | Throw e =>
      (e = RangeError \/ e = FirebaseError) /\
      results w1 = results w /\ sent w1 = sent w
  end.
Proof.
  unfold guarded_run, bind. rewrite ref_update_cases.
  destruct (rejects env (trace w) _).
  { intros [= <- <-]. cbn. split; [done | by split; [right |]]. }
  set (w0 := set_claim eventId true (log (ClaimUpdate eventId true) true w)).
  assert (H0 : forall j, j <> eventId ->
             results w0 !! j = results w !! j /\ claims w0 !! j = claims w !! j).
  { intros j Hj. cbn. split; [done |]. by rewrite lookup_insert_ne. }
  destruct (process_cases eventId eventData w0) as [-> | (r & w3 & F & ->)].
  { intros [= <- <-]. split; [exact H0 |]. by split; [left |]. }
  destruct F as (Hc & Hr & Hs & _).
  rewrite persist_and_notify_cases.
  destruct (rejects env (trace w3) _).
  { intros [= <- <-]. cbn. rewrite Hc, Hr, Hs. split; [exact H0 |].
    by split; [right |]. }
  cbn zeta. destruct (rejects env _ (Send _)); intros [= <- <-]; cbn;
    rewrite Hc, Hr.
  - split.
    + intros j Hj. rewrite lookup_insert_ne by done. by apply H0.
    + split; [apply lookup_insert_eq |]. eexists. apply lookup_insert_eq.
  - split.
    + intros j Hj. rewrite lookup_insert_ne by done. by apply H0.
    + split; [apply lookup_insert_eq |]. eexists. apply lookup_insert_eq.
Qed.

(** X1. [processDoorbellEvent] lets two errors out and no other. It
    throws a RangeError exactly when the event's [timestamp] is absent or
    empty and its [createdAt] is absent, out of the range of dates or not
    parsable, and then it has touched nothing. Otherwise it returns, or it
    throws the error of a rejected write to the Result Sink, which is
    then the last call of the run: no failure of the image fetch, of the
    oracle, of the visitors collection or of the notification channel
    escapes it. *)
Theorem processing_lets_two_errors_out eventId eventData w :
  let run := processDoorbellEvent eventId eventData w in
  (fst run = Throw RangeError <->
   truthy_opt (ev_timestamp eventData) = false /\
   time_value (ev_createdAt eventData) = None) /\
  (fst run = Throw RangeError -> snd run = w) /\
  (fst run = Ok tt \/ fst run = Throw RangeError \/
   (fst run = Throw FirebaseError /\
    exists r w3, trace (snd run) =
                 trace w3 ++ [{| e_call := SinkSet eventId r; e_ok := false |}])).
Proof.
  cbn zeta.
  destruct (truthy_opt (ev_timestamp eventData)) eqn:Ht;
    [| destruct (time_value (ev_createdAt eventData)) as [ms |] eqn:Hc].
  3: { assert (Hrun : processDoorbellEvent eventId eventData w
                      = (Throw RangeError, w)).
       { unfold processDoorbellEvent, bind. by rewrite actualTimestamp_fails. }
       rewrite Hrun. cbn. split; [done |]. split; [done | by right; left]. }
  all: destruct (actualTimestamp_resolves eventData w) as (ts & Hts);
    [first [by left | right; congruence] |].
  all: destruct (acquireImage_total eventData w) as (img & w1 & Himg & _ & _).
  all: destruct (callFacialRecognition_total img w1) as (o & w2 & Ho & _ & _).
  all: destruct (validateVisitor_total o w2) as (val & w3 & Hval & _).
  all: rewrite (process_stages eventId eventData w ts img w1 o w2 val w3) by done.
  all: rewrite persist_and_notify_cases.
  all: destruct (rejects env (trace w3) _); cbn zeta;
    [| destruct (rejects env _ (Send _))]; cbn.
  all: split; [split; [discriminate | intros [? ?]; congruence] |].
  all: split; [discriminate |].
  all: first [by left | right; right; split; [done |]; by do 2 eexists].
Qed.

(** X2. Failures stay within the event: the listener returns normally
    unless the update that resets the claim is itself rejected, in which
    case that update is its last call and its error the one thrown. *)
Theorem listener_throws_only_on_rejected_reset eventId eventData w :
  let run := onChildAdded eventId eventData w in
  fst run = Ok tt \/
  (fst run = Throw FirebaseError /\
   exists before,
     trace (snd run) =
     before ++ [{| e_call := ClaimUpdate eventId false; e_ok := false |}]).
Proof.
  cbn zeta.
  destruct (decide (ev_processed eventData = Some true)) as [Hp | Hp].
  { left. unfold onChildAdded. by rewrite Hp. }
  rewrite onChildAdded_unclaimed by done. unfold try_catch.
  destruct (guarded_run eventId eventData w) as [[[] | err] w1]; [by left |].
  rewrite ref_update_cases.
  destruct (rejects env (trace w1) _); cbn; [right | by left].
  split; [done | by eexists].
Qed.

(** X3. When the listener returns normally on an event that was not
    marked processed, the claim of the event is set and a result is
    stored under its id, or the claim is unset and neither the results
    nor the notifications sent have changed: no event is left claimed
    without a result. *)
Theorem completed_delivery_has_result_or_is_unclaimed eventId eventData w w' :
  ev_processed eventData <> Some true ->
  onChildAdded eventId eventData w = (Ok tt, w') ->
  (claims w' !! eventId = Some true /\
   exists r, results w' !! eventId = Some r) \/
  (claims w' !! eventId = Some false /\
   results w' = results w /\ sent w' = sent w).
Proof.
  intros Hp. rewrite onChildAdded_unclaimed by done. unfold try_catch.
  destruct (guarded_run eventId eventData w) as [[[] | err] w1] eqn:Hrun;
    apply guarded_run_states in Hrun as [_ Hres].
  - intros [= <-]. by left.
  - rewrite ref_update_cases.
    destruct (rejects env (trace w1) _); [discriminate |].
    intros [= <-]. right. cbn. destruct Hres as (_ & Hr & Hs).
    split; [apply lookup_insert_eq | done].
Qed.

(** X4. A delivery touches the claim and the result of its own event
    only: under every other id both are as before. *)
Theorem delivery_leaves_other_events_alone eventId eventData w j :
  j <> eventId ->
  let w' := snd (onChildAdded eventId eventData w) in
  results w' !! j = results w !! j /\ claims w' !! j = claims w !! j.
Proof.
  intros Hj. cbn zeta.
  destruct (decide (ev_processed eventData = Some true)) as [Hp | Hp].
  { unfold onChildAdded. by rewrite Hp. }
  rewrite onChildAdded_unclaimed by done. unfold try_catch.
  destruct (guarded_run eventId eventData w) as [[[] | err] w1] eqn:Hrun;
    apply guarded_run_states in Hrun as [Hother _].
  - by apply Hother.
  - rewrite ref_update_cases.
    destruct (rejects env (trace w1) _); cbn; [by apply Hother |].
    rewrite lookup_insert_ne by done. by apply Hother.
Qed.

(** The calls of the try block of the listener and what they leave: a
    run that returns ends with the accepted write of a result and the
    dispatch of its notification, the only one of the run. *)
Lemma guarded_run_trace eventId eventData w res w1 :
  guarded_run eventId eventData w = (res, w1) ->
  exists d, trace w1 = trace w ++ d /\
    match res with
    | Throw _ => Forall (fun e => is_send (e_call e) = false) d
    | Ok _ =>
        exists before r delivered,
          d = before ++
              [{| e_call := SinkSet eventId r; e_ok := true |};
               {| e_call := Send (notification eventId r); e_ok := delivered |}] /\
          Forall (fun e => is_send (e_call e) = false) before /\
          results w1 !! eventId = Some r /\
          sent w1 = if delivered then sent w ++ [notification eventId r]
                    else sent w
    end.
Proof.
  unfold guarded_run, bind. rewrite ref_update_cases.
  destruct (rejects env (trace w) _).
  { intros [= <- <-]. eexists. split; [reflexivity | by repeat constructor]. }
  set (w0 := set_claim eventId true (log (ClaimUpdate eventId true) true w)).
  destruct (process_cases eventId eventData w0) as [-> | (r & w3 & F & ->)].
  { intros [= <- <-]. eexists. split; [reflexivity | by repeat constructor]. }
  destruct F as (_ & _ & Hs & d & Hd & Hearly).
  assert (Hbefore : Forall (fun e => is_send (e_call e) = false)
                      ({| e_call := ClaimUpdate eventId true; e_ok := true |} :: d)).
  { constructor; [done |]. eapply Forall_impl; [exact Hearly |].
    intros e He. cbn in He. by destruct (e_call e). }
  set (before := {| e_call := ClaimUpdate eventId true; e_ok := true |} :: d)
    in Hbefore.
  rewrite persist_and_notify_cases.
  destruct (rejects env (trace w3) _).
  { intros [= <- <-].
    exists (before ++ [{| e_call := SinkSet eventId r; e_ok := false |}]).
    split.
    { cbn. rewrite Hd. cbn. by rewrite <- !app_assoc. }
    apply Forall_app. split; [exact Hbefore | by repeat constructor]. }
  cbn zeta. destruct (rejects env _ (Send _)); intros [= <- <-].
  - exists (before ++
            [{| e_call := SinkSet eventId r; e_ok := true |};
             {| e_call := Send (notification eventId r); e_ok := false |}]).
    split.
    { cbn. rewrite Hd. cbn. by rewrite <- !app_assoc. }
    exists before, r, false. split; [reflexivity |]. split; [exact Hbefore |].
    cbn. split; [apply lookup_insert_eq | exact Hs].
  - exists (before ++
            [{| e_call := SinkSet eventId r; e_ok := true |};
             {| e_call := Send (notification eventId r); e_ok := true |}]).
    split.
    { cbn. rewrite Hd. cbn. by rewrite <- !app_assoc. }
    exists before, r, true. split; [reflexivity |]. split; [exact Hbefore |].
    cbn. split; [apply lookup_insert_eq | by rewrite Hs].
Qed.

(** X5. Persistence precedes notification. If a delivery dispatched a
    notification, the call just before it is the accepted write of a
    result under the event's id, the notification is the one built from
    that result, that result is the one stored when the listener is
    done, no other notification was dispatched in the delivery, and the
    message joins the sent ones if the channel took it. *)
Theorem notification_follows_stored_result eventId eventData w d m ok :
  let w' := snd (onChildAdded eventId eventData w) in
  trace w' = trace w ++ d ->
  In {| e_call := Send m; e_ok := ok |} d ->
  exists before r,
    d = before ++ [{| e_call := SinkSet eventId r; e_ok := true |};
                   {| e_call := Send m; e_ok := ok |}] /\
    m = notification eventId r /\
    Forall (fun e => is_send (e_call e) = false) before /\
    results w' !! eventId = Some r /\
    sent w' = if ok then sent w ++ [m] else sent w.
Proof.
  cbn zeta.
  destruct (decide (ev_processed eventData = Some true)) as [Hp | Hp].
  { unfold onChildAdded. rewrite Hp. cbn. intros Hd.
    rewrite <- (app_nil_r (trace w)) in Hd at 1.
    apply app_inv_head in Hd. by subst d. }
  rewrite onChildAdded_unclaimed by done. unfold try_catch.
  destruct (guarded_run eventId eventData w) as [[[] | err] w1] eqn:Hrun;
    apply guarded_run_trace in Hrun as (d1 & Hd1 & Hshape).
  - cbn. intros Hd Hin. rewrite Hd1 in Hd. apply app_inv_head in Hd. subst d1.
    destruct Hshape as (before & r & delivered & -> & Hbefore & Hr & Hs).
    apply in_app_or in Hin as [Hin | [Hin | [Hin | []]]].
    + rewrite Forall_forall in Hbefore.
      apply list_elem_of_In, Hbefore in Hin. discriminate.
    + discriminate.
    + injection Hin as <- <-. by exists before, r.
  - rewrite ref_update_cases.
    destruct (rejects env (trace w1) _); cbn; intros Hd Hin;
      rewrite Hd1, <- app_assoc in Hd; apply app_inv_head in Hd; subst d;
      apply in_app_or in Hin as [Hin | [Hin | []]]; try discriminate;
      rewrite Forall_forall in Hshape;
      apply list_elem_of_In, Hshape in Hin; discriminate.
Qed.

(** Validation answers [authorized] only to an outcome that claims
    success and authentication. *)
Lemma validateVisitor_authorized_only_if o w val w' :
  validateVisitor o w = (Ok val, w') ->
  isAuthorized val = true ->
  success o = true /\ authenticated o = true.
Proof.
  unfold validateVisitor.
  destruct (success o), (authenticated o); cbn; try done;
    intros [= <- <-]; discriminate.
Qed.

Lemma js_or_not_empty s : js_or (Some s) "unknown" <> "".
Proof.
  cbn. unfold truthy. destruct (String.eqb s "") eqn:E; cbn; [done |].
  intros ->. discriminate.
Qed.

(** Every run that reaches the persistence stage does so with a sound
    result. *)
Lemma process_cases_sound eventId eventData w :
  processDoorbellEvent eventId eventData w = (Throw RangeError, w) \/
  exists r w3,
    stage_frame w w3 /\ sound_result eventId r /\
    processDoorbellEvent eventId eventData w = persist_and_notify eventId r w3.
Proof.
  destruct (actualTimestamp_pure eventData w) as [Hts | (ts & Hts)].
  { left. unfold processDoorbellEvent, bind. by rewrite Hts. }
  right.
  destruct (acquireImage_total eventData w) as (img & w1 & Himg & _ & F1).
  destruct (callFacialRecognition_total img w1) as (o & w2 & Ho & _ & F2).
  destruct (validateVisitor_total o w2) as (val & w3 & Hval & F3).
  exists (finalResult_of eventId eventData ts img o val (clock env (trace w3))), w3.
  split; [eauto using stage_frame_trans |].
  split; [| by eapply process_stages].
  split; [| split].
  - cbn. rewrite orb_false_r. intros Hauth.
    destruct (validateVisitor_authorized_only_if _ _ _ _ Hval Hauth) as [-> ->].
    done.
  - apply js_or_not_empty.
  - cbn. destruct (truthy_opt img); [by right | by left].
Qed.

(** X6. Whatever the event and the environment, every result a delivery
    asks the Result Sink to store is stored under the id of the event
    delivered, is authorized only if it is recognized, has a name that is
    not empty, and has an image reference that is absent or names the
    event. *)
Theorem written_results_are_sound eventId eventData w d i r ok :
  trace (snd (onChildAdded eventId eventData w)) = trace w ++ d ->
  In {| e_call := SinkSet i r; e_ok := ok |} d ->
  i = eventId /\ sound_result eventId r.
Proof.
  destruct (decide (ev_processed eventData = Some true)) as [Hp | Hp].
  { unfold onChildAdded. rewrite Hp. cbn. intros Hd.
    rewrite <- (app_nil_r (trace w)) in Hd at 1.
    apply app_inv_head in Hd. by subst d. }
  rewrite onChildAdded_unclaimed by done.
  assert (Hrun : forall res w1 d1,
            guarded_run eventId eventData w = (res, w1) ->
            trace w1 = trace w ++ d1 ->
            In {| e_call := SinkSet i r; e_ok := ok |} d1 ->
            i = eventId /\ sound_result eventId r).
  { unfold guarded_run, bind. rewrite ref_update_cases.
    intros res w1 d1.
    destruct (rejects env (trace w) _).
    { intros [= <- <-]. cbn. intros Hd1. apply app_inv_head in Hd1. subst d1.
      by intros [[=] | []]. }
    set (w0 := set_claim eventId true (log (ClaimUpdate eventId true) true w)).
    destruct (process_cases_sound eventId eventData w0)
      as [-> | (r0 & w3 & F & Hsound & ->)].
    { intros [= <- <-]. cbn. intros Hd1. apply app_inv_head in Hd1. subst d1.
      by intros [[=] | []]. }
    destruct F as (_ & _ & _ & ds & Hds & Hearly).
    intros Hp0. apply persist_and_notify_outcome in Hp0
      as [[-> ->] | [-> (delivered & Ht)]].
    - cbn. rewrite Hds. cbn. rewrite <- !app_assoc. intros Hd1.
      apply app_inv_head in Hd1. subst d1. cbn.
      intros [[=] | Hin]. apply in_app_or in Hin as [Hin | [Hin | []]].
      + rewrite Forall_forall in Hearly.
        apply list_elem_of_In, Hearly in Hin. discriminate.
      + by injection Hin as <- <- <-.
    - rewrite Ht, Hds. cbn. rewrite <- !app_assoc. intros Hd1.
      apply app_inv_head in Hd1. subst d1. cbn.
      intros [[=] | Hin]. apply in_app_or in Hin as [Hin | [Hin | [[=] | []]]].
      + rewrite Forall_forall in Hearly.
        apply list_elem_of_In, Hearly in Hin. discriminate.
      + by injection Hin as <- <- <-. }
  unfold try_catch.
  destruct (guarded_run eventId eventData w) as [[[] | err] w1] eqn:Hg.
  - cbn. intros Hd Hin. by eapply Hrun.
  - destruct (guarded_run_trace _ _ _ _ _ Hg) as (d1 & Hd1 & _).
    rewrite ref_update_cases.
    destruct (rejects env (trace w1) _); cbn; intros Hd Hin;
      rewrite Hd1, <- app_assoc in Hd; apply app_inv_head in Hd; subst d;
      apply in_app_or in Hin as [Hin | [[=] | []]];
      by eapply Hrun.
Qed.

(** The loop either saves the visit of one authorized visitor of the
    collection and answers with its stored name, or changes no visitor
    and, if it returns, answers [authorized = false]. *)
Lemma lookup_loop_visitors first names :
  forall w res w', lookup_loop first names w = (res, w') ->
  (visitors w' = visitors w /\
   forall val, res = Ok val ->
     val = {| isAuthorized := false; visitorName := first |}) \/
  (exists v now,
     In v (visitors w) /\ v_isAuthorized v = true /\
     res = Ok {| isAuthorized := true; visitorName := v_name v |} /\
     visitors w' = store_doc (visit v now) (visitors w)).
Proof.
  induction names as [| name rest IH]; intros w res w' Hrun.
  - injection Hrun as <- <-. left. split; [done |]. by intros val [= <-].
  - destruct (RegExp_i name) as [re |] eqn:Hre.
    2: { rewrite lookup_loop_bad_pattern in Hrun by done.
         injection Hrun as <- <-. left. split; [done |]. by intros val [=]. }
    rewrite (lookup_loop_step _ _ _ re) in Hrun by done.
    destruct (rejects env (trace w) _).
    { injection Hrun as <- <-. left. split; [done |]. by intros val [=]. }
    cbn zeta in Hrun.
    destruct (authorized_match re (visitors w)) as [v |] eqn:Hhit.
    + apply authorized_match_In in Hhit as (Hin & Hauth & _).
      destruct (rejects env _ (Save _)); injection Hrun as <- <-.
      * left. split; [done |]. by intros val [=].
      * right. by do 2 eexists.
    + by apply IH in Hrun.
Qed.

(** X7. A visit is recorded exactly when the answer is authorized.
    Validation always answers. If the answer is authorized, the outcome
    claimed success and authentication, the name is the stored name of
    an authorized visitor of the collection, and the collection differs
    from the one before by the save of that visitor with one more visit.
    If the answer is not authorized, the collection is unchanged. *)
Theorem visit_recorded_iff_authorized o w :
  let run := validateVisitor o w in
  exists val,
    fst run = Ok val /\
    if isAuthorized val
    then exists v now,
           In v (visitors w) /\ v_isAuthorized v = true /\
           visitorName val = v_name v /\
           visitors (snd run) = store_doc (visit v now) (visitors w) /\
           success o = true /\ authenticated o = true
    else visitors (snd run) = visitors w.
Proof.
  cbn zeta. unfold validateVisitor.
  destruct (success o) eqn:Hs; [| by eexists].
  destruct (authenticated o) eqn:Ha; [| by eexists].
  cbn [negb orb].
  destruct (default [] (recognized_names o)) as [| first rest]; [by eexists |].
  unfold try_catch.
  destruct (lookup_loop first (first :: rest) w) as [res w'] eqn:Hrun.
  apply lookup_loop_visitors in Hrun
    as [[Hv Hval] | (v & now & Hin & Hauth & -> & Hv)].
  - destruct res as [val | err].
    + rewrite (Hval val eq_refl). by eexists.
    + by eexists.
  - eexists. split; [reflexivity |]. cbn. by exists v, now.
Qed.

Lemma visit_step o w :
  let w' := snd (validateVisitor o w) in
  visitors w' = visitors w \/
  exists v now,
    In v (visitors w) /\ v_isAuthorized v = true /\
    visitors w' = store_doc (visit v now) (visitors w).
Proof.
  cbn zeta. unfold validateVisitor.
  destruct (negb (success o) || negb (authenticated o)); [by left |].
  destruct (default [] (recognized_names o)) as [| first rest]; [by left |].
  unfold try_catch.
  destruct (lookup_loop first (first :: rest) w) as [res w'] eqn:Hrun.
  apply lookup_loop_visitors in Hrun
    as [[Hv _] | (v & now & Hin & Hauth & -> & Hv)].
  - left. by destruct res.
  - right. by exists v, now.
Qed.

Lemma unique_id_in vs v :
  List.NoDup (List.map v_id vs) -> In v vs ->
  forall u, In u vs -> v_id u = v_id v -> u = v.
Proof.
  induction vs as [| x vs IH]; [done |].
  cbn. intros Hnd. inversion Hnd as [| ? ? Hnotin Hnd']; subst.
  intros [-> | Hv] u [<- | Hu] Hid; try done.
  - destruct Hnotin. rewrite <- Hid. by apply List.in_map.
  - destruct Hnotin. rewrite Hid. by apply List.in_map.
  - by apply IH.
Qed.

Lemma store_doc_pointwise vs v now :
  v_isAuthorized v = true ->
  (forall u, In u vs -> v_id u = v_id v -> u = v) ->
  Forall2 same_but_visits vs (store_doc (visit v now) vs) /\
  List.map v_id (store_doc (visit v now) vs) = List.map v_id vs.
Proof.
  intros Hauth. induction vs as [| x vs IH]; intros Huniq; [by split |].
  destruct IH as [IH1 IH2]; [intros u Hu; apply Huniq; by right |].
  unfold store_doc in *. cbn [List.map visit v_id].
  destruct (N.eqb (v_id x) (v_id v)) eqn:Hx.
  - apply N.eqb_eq in Hx. assert (x = v) as -> by (apply Huniq; [by left | done]).
    split.
    + constructor; [| exact IH1]. right. split; [done | by eexists].
    + cbn [v_id]. f_equal. exact IH2.
  - split.
    + constructor; [by left | exact IH1].
    + f_equal. exact IH2.
Qed.

Lemma Forall2_same_but_visits_refl vs : Forall2 same_but_visits vs vs.
Proof. induction vs; constructor; [by left | done]. Qed.

(** The visitors after a run of [processDoorbellEvent]. *)
Lemma process_visitors eventId eventData w :
  let w' := snd (processDoorbellEvent eventId eventData w) in
  visitors w' = visitors w \/
  exists v now,
    In v (visitors w) /\ v_isAuthorized v = true /\
    visitors w' = store_doc (visit v now) (visitors w).
Proof.
  cbn zeta.
  destruct (actualTimestamp_pure eventData w) as [Hts | (ts & Hts)].
  { left. unfold processDoorbellEvent, bind. by rewrite Hts. }
  destruct (acquireImage_total eventData w) as (img & w1 & Himg & Hv1 & _).
  destruct (callFacialRecognition_total img w1) as (o & w2 & Ho & Hv2 & _).
  destruct (validateVisitor_total o w2) as (val & w3 & Hval & _).
  rewrite (process_stages eventId eventData w ts img w1 o w2 val w3) by done.
  assert (Hsame : visitors (snd (persist_and_notify eventId
             (finalResult_of eventId eventData ts img o val (clock env (trace w3)))
             w3)) = visitors w3).
  { rewrite persist_and_notify_cases.
    destruct (rejects env (trace w3) _); [done |]. cbn zeta.
    by destruct (rejects env _ (Send _)). }
  rewrite Hsame.
  destruct (visit_step o w2) as [Hsame2 | Hvisit].
  all: rewrite Hval in *; cbn in *.
  - left. congruence.
  - right. destruct Hvisit as (v & now & Hin & Hauth & Hv3).
    exists v, now. rewrite <- Hv1, <- Hv2. done.
Qed.

(** The visitors after a delivery. *)
Lemma delivery_visitors eventId eventData w :
  let w' := snd (onChildAdded eventId eventData w) in
  visitors w' = visitors w \/
  exists v now,
    In v (visitors w) /\ v_isAuthorized v = true /\
    visitors w' = store_doc (visit v now) (visitors w).
Proof.
  cbn zeta.
  destruct (decide (ev_processed eventData = Some true)) as [Hp | Hp].
  { left. unfold onChildAdded. by rewrite Hp. }
  rewrite onChildAdded_unclaimed by done.
  unfold try_catch, guarded_run, bind. rewrite ref_update_cases.
  destruct (rejects env (trace w) _).
  { left. rewrite ref_update_cases. by destruct (rejects env _ _). }
  set (w0 := set_claim eventId true (log (ClaimUpdate eventId true) true w)).
  pose proof (process_visitors eventId eventData w0) as Hv. cbn zeta in Hv.
  destruct (processDoorbellEvent eventId eventData w0) as [[[] | err] w1];
    cbn in Hv; [exact Hv |].
  rewrite ref_update_cases. by destruct (rejects env (trace w1) _).
Qed.

(** X8. A delivery never adds, removes, renames, authorizes or
    de-authorizes a visitor. With one document per [_id], the collection
    after any delivery holds the same documents at the same places, each
    one as it was or, for an authorized visitor, with one more visit
    recorded; a visitor that is not authorized is never touched. *)
Theorem delivery_preserves_visitors eventId eventData w :
  List.NoDup (List.map v_id (visitors w)) ->
  let vs' := visitors (snd (onChildAdded eventId eventData w)) in
  Forall2 same_but_visits (visitors w) vs' /\
  List.map v_id vs' = List.map v_id (visitors w).
Proof.
  intros Hnd. cbn zeta.
  destruct (delivery_visitors eventId eventData w)
    as [-> | (v & now & Hin & Hauth & ->)].
  - split; [apply Forall2_same_but_visits_refl | done].
  - apply store_doc_pointwise; [done |]. by apply unique_id_in.
Qed.

(** The loop when every candidate is a pattern whose lookup is answered
    and finds no authorized visitor. *)
Lemma lookup_loop_no_hit first :
  store_reachable ->
  forall names w,
  Forall (no_hit (visitors w)) names ->
  exists w',
    lookup_loop first names w =
      (Ok {| isAuthorized := false; visitorName := first |}, w') /\
    visitors w' = visitors w /\
    trace w' = trace w ++ lookups names.
Proof.
  intros Hup. induction names as [| p names IH]; intros w Hnone.
  - exists w. cbn. by rewrite app_nil_r.
  - inversion Hnone as [| ? ? (rp & Hrp & Hnohit) Hrest]; subst.
    rewrite (lookup_loop_step _ _ _ rp) by done.
    rewrite Hup by done. cbn zeta. rewrite Hnohit.
    destruct (IH (log (FindOne p) true w) Hrest) as (w' & -> & Hv & Ht).
    exists w'. split; [done |]. split; [exact Hv |].
    rewrite Ht. cbn. by rewrite <- app_assoc.
Qed.

(** X9. Recognized but not authorized. The outcome claims success and
    authentication and lists candidates that are all patterns whose
    lookups find no authorized visitor; the store answers. Then every
    candidate is looked up, in order, no visitor is changed, and the
    result that reaches the persistence stage is recognized, not
    authorized, and bears the first candidate as its name ("unknown" if
    that candidate is the empty string). *)
Theorem recognized_but_not_authorized
    eventId eventData w ts img w1 o w2 first rest :
  actualTimestamp eventData w = (Ok ts, w) ->
  acquireImage eventData w = (Ok img, w1) ->
  callFacialRecognition img w1 = (Ok o, w2) ->
  success o = true -> authenticated o = true ->
  recognized_names o = Some (first :: rest) ->
  store_reachable ->
  Forall (no_hit (visitors w)) (first :: rest) ->
  exists w3 r,
    validateVisitor o w2 =
      (Ok {| isAuthorized := false; visitorName := first |}, w3) /\
    visitors w3 = visitors w /\
    trace w3 = trace w2 ++ lookups (first :: rest) /\
    r_recognized r = true /\ r_authorized r = false /\
    r_name r = (if truthy first then first else "unknown") /\
    result_handed_to_sink eventId eventData w r w3.
Proof.
  intros Hts Himg Ho Hs Ha Hnames Hup Hnone.
  destruct (acquireImage_total eventData w) as (? & ? & Himg' & Hv1 & _).
  rewrite Himg in Himg'. injection Himg' as <- <-.
  destruct (callFacialRecognition_total img w1) as (? & ? & Ho' & Hv2 & _).
  rewrite Ho in Ho'. injection Ho' as <- <-.
  assert (Hvis : visitors w2 = visitors w) by congruence.
  rewrite <- Hvis in Hnone.
  destruct (lookup_loop_no_hit first Hup (first :: rest) w2 Hnone)
    as (w3 & Hloop & Hv3 & Ht).
  assert (Hval : validateVisitor o w2 =
                 (Ok {| isAuthorized := false; visitorName := first |}, w3)).
  { rewrite (validateVisitor_names o first rest) by done.
    unfold try_catch. by rewrite Hloop. }
  exists w3. eexists. split; [exact Hval |]. split; [congruence |].
  split; [exact Ht |].
  split; [| split; [| split]];
    [| | | apply handed_to_sink; by eapply process_stages].
  - cbn. by rewrite Hs, Ha.
  - reflexivity.
  - reflexivity.
Qed.

(** X10. An image that cannot be used. The event has no inline image and
    a URL, and the fetch is rejected or brings an empty body. Then no
    call is made to the oracle, the recognition stage answers with the
    outcome for a missing image, and the result that reaches the
    persistence stage is not recognized, not authorized, named
    "unclassified", with no image reference. *)
Theorem unusable_image_gives_unclassified eventId eventData w ts :
  truthy_opt (ev_image eventData) = false ->
  truthy_opt (ev_imageUrl eventData) = true ->
  actualTimestamp eventData w = (Ok ts, w) ->
  let url := js_or (ev_imageUrl eventData) "" in
  rejects env (trace w) (HttpGet url get_config) = true \/
  get_body env (trace w) url = "" ->
  exists ok img,
    let w1 := log (HttpGet url get_config) ok w in
    acquireImage eventData w = (Ok img, w1) /\
    truthy_opt img = false /\
    callFacialRecognition img w1 = (Ok no_image_outcome, w1) /\
    exists r,
      r_recognized r = false /\ r_name r = "unclassified" /\
      r_authorized r = false /\ r_imageReference r = None /\
      result_handed_to_sink eventId eventData w r w1.
Proof.
  intros Hi Hu Hts url Hbad.
  assert (Hacq : exists ok img,
            acquireImage eventData w = (Ok img, log (HttpGet url get_config) ok w)
            /\ truthy_opt img = false).
  { rewrite acquireImage_cases, Hi, Hu. cbn zeta. fold url.
    destruct (rejects env (trace w) _); [by exists false, None |].
    destruct Hbad as [? | Hempty]; [done |].
    exists true. eexists. split; [reflexivity |]. by rewrite Hempty. }
  destruct Hacq as (ok & img & Hacq & Himg).
  exists ok, img. cbn zeta. split; [exact Hacq |]. split; [exact Himg |].
  assert (Ho : callFacialRecognition img (log (HttpGet url get_config) ok w)
               = (Ok no_image_outcome, log (HttpGet url get_config) ok w))
    by (by rewrite callFacialRecognition_cases, Himg).
  split; [exact Ho |].
  eexists. repeat split;
    [| | | | apply handed_to_sink; eapply process_stages; try eassumption;
             by apply validateVisitor_unauthenticated; left];
    try reflexivity.
  cbn. by rewrite Himg.
Qed.

Lemma lookup_loop_store_calls first names :
  forall w res w', lookup_loop first names w = (res, w') ->
  exists d, trace w' = trace w ++ d /\
            Forall (fun e => store_call (e_call e) = true) d.
Proof.
  induction names as [| name rest IH]; intros w res w' Hrun.
  - injection Hrun as <- <-. exists []. by rewrite app_nil_r.
  - destruct (RegExp_i name) as [re |] eqn:Hre.
    2: { rewrite lookup_loop_bad_pattern in Hrun by done.
         injection Hrun as <- <-. exists []. by rewrite app_nil_r. }
    rewrite (lookup_loop_step _ _ _ re) in Hrun by done.
    destruct (rejects env (trace w) _).
    { injection Hrun as <- <-. eexists. split; [reflexivity |].
      by repeat constructor. }
    cbn zeta in Hrun.
    destruct (authorized_match re (visitors w)) as [v |].
    + destruct (rejects env _ (Save _)); injection Hrun as <- <-; cbn;
        (eexists; split; [by rewrite <- app_assoc | by repeat constructor]).
    + destruct (IH _ _ _ Hrun) as (d & Hd & Hcalls).
      exists ({| e_call := FindOne name; e_ok := true |} :: d). split.
      * rewrite Hd. cbn. by rewrite <- app_assoc.
      * by constructor.
Qed.

Lemma truthy_not_empty s : truthy s = true -> s <> "".
Proof. intros H ->. discriminate. Qed.

(** The HTTP calls of a run of [processDoorbellEvent]. *)
Lemma process_http_calls eventId eventData w :
  exists d,
    trace (snd (processDoorbellEvent eventId eventData w)) = trace w ++ d /\
    Forall (fun e => http_call_of eventData (e_call e)) d.
Proof.
  destruct (actualTimestamp_pure eventData w) as [Hts | (ts & Hts)].
  { exists []. unfold processDoorbellEvent, bind. rewrite Hts. cbn.
    by rewrite app_nil_r. }
  assert (Hacq : exists img w1 d1,
            acquireImage eventData w = (Ok img, w1) /\
            trace w1 = trace w ++ d1 /\
            Forall (fun e => http_call_of eventData (e_call e)) d1 /\
            (truthy_opt (ev_image eventData) = true -> img = ev_image eventData)).
  { rewrite acquireImage_cases.
    destruct (truthy_opt (ev_image eventData)) eqn:Hi.
    { exists (ev_image eventData), w, []. by rewrite app_nil_r. }
    destruct (truthy_opt (ev_imageUrl eventData)) eqn:Hu.
    2: { exists None, w, []. by rewrite app_nil_r. }
    assert (Hcall : http_call_of eventData
              (HttpGet (js_or (ev_imageUrl eventData) "") get_config)).
    { cbn. rewrite Hi. destruct (ev_imageUrl eventData) as [u |]; [| done].
      cbn in Hu |- *. rewrite Hu. repeat split. by apply truthy_not_empty. }
    cbn zeta. destruct (rejects env (trace w) _) eqn:Hrej.
    - exists None, (log (HttpGet (js_or (ev_imageUrl eventData) "") get_config)
                        false w),
        [{| e_call := HttpGet (js_or (ev_imageUrl eventData) "") get_config;
            e_ok := false |}].
      split; [done |]. split; [done |]. split; [| done].
      constructor; [exact Hcall | constructor].
    - eexists _, (log (HttpGet (js_or (ev_imageUrl eventData) "") get_config)
                      true w),
        [{| e_call := HttpGet (js_or (ev_imageUrl eventData) "") get_config;
            e_ok := true |}].
      split; [done |]. split; [done |]. split; [| done].
      constructor; [exact Hcall | constructor]. }
  destruct Hacq as (img & w1 & d1 & Himg & Hd1 & Hc1 & Hinline).
  assert (Hrec : exists o w2 d2,
            callFacialRecognition img w1 = (Ok o, w2) /\
            trace w2 = trace w1 ++ d2 /\
            Forall (fun e => http_call_of eventData (e_call e)) d2).
  { rewrite callFacialRecognition_cases.
    destruct (truthy_opt img) eqn:Ht.
    2: { exists no_image_outcome, w1, []. by rewrite app_nil_r. }
    assert (Hcall : http_call_of eventData
              (HttpPost (faceRecognitionUrl +:+ "/recognize")
                        (js_or img "") post_config)).
    { destruct img as [i |]; [| done]. cbn in Ht |- *. rewrite Ht.
      repeat split; [by apply truthy_not_empty |]. intros Hi. symmetry.
      by apply Hinline. }
    cbn zeta. destruct (rejects env (trace w1) _).
    - exists unavailable_outcome,
        (log (HttpPost (faceRecognitionUrl +:+ "/recognize")
                       (js_or img "") post_config) false w1),
        [{| e_call := HttpPost (faceRecognitionUrl +:+ "/recognize")
                               (js_or img "") post_config; e_ok := false |}].
      split; [done |]. split; [done |].
      constructor; [exact Hcall | constructor].
    - eexists _,
        (log (HttpPost (faceRecognitionUrl +:+ "/recognize")
                       (js_or img "") post_config) true w1),
        [{| e_call := HttpPost (faceRecognitionUrl +:+ "/recognize")
                               (js_or img "") post_config; e_ok := true |}].
      split; [done |]. split; [done |].
      constructor; [exact Hcall | constructor]. }
  destruct Hrec as (o & w2 & d2 & Ho & Hd2 & Hc2).
  assert (Hval : exists val w3 d3,
            validateVisitor o w2 = (Ok val, w3) /\
            trace w3 = trace w2 ++ d3 /\
            Forall (fun e => http_call_of eventData (e_call e)) d3).
  { destruct (validateVisitor_total o w2) as (val & w3 & Hval & _).
    exists val, w3. revert Hval. unfold validateVisitor.
    destruct (negb (success o) || negb (authenticated o)).
    { intros [= <- <-]. exists []. by rewrite app_nil_r. }
    destruct (default [] (recognized_names o)) as [| first rest].
    { intros [= <- <-]. exists []. by rewrite app_nil_r. }
    unfold try_catch.
    destruct (lookup_loop first (first :: rest) w2) as [res wl] eqn:Hloop.
    apply lookup_loop_store_calls in Hloop as (d3 & Hd3 & Hstore).
    intros Hres. exists d3. split; [done |].
    assert (wl = w3) as <- by (destruct res; by injection Hres).
    split; [exact Hd3 |].
    eapply Forall_impl; [exact Hstore |]. intros e He. cbn in He.
    by destruct (e_call e). }
  destruct Hval as (val & w3 & d3 & Hval & Hd3 & Hc3).
  rewrite (process_stages eventId eventData w ts img w1 o w2 val w3) by done.
  rewrite persist_and_notify_cases.
  destruct (rejects env (trace w3) _); cbn zeta;
    [| destruct (rejects env _ (Send _))]; cbn;
    rewrite Hd3, Hd2, Hd1, <- !app_assoc;
    (eexists; split; [reflexivity |]);
    repeat (apply Forall_app; split); try done; by repeat constructor.
Qed.

(** X11. What a delivery sends over HTTP. The image is fetched only when
    the event has no inline image, from the event's URL. The oracle is
    only ever sent an image that is not empty, at the address of the
    service and with its 30 s timeout, and when the event has an inline
    image it is that image, unchanged. *)
Theorem delivery_http_calls eventId eventData w d e :
  trace (snd (onChildAdded eventId eventData w)) = trace w ++ d ->
  In e d ->
  http_call_of eventData (e_call e).
Proof.
  destruct (decide (ev_processed eventData = Some true)) as [Hp | Hp].
  { unfold onChildAdded. rewrite Hp. cbn. intros Hd.
    rewrite <- (app_nil_r (trace w)) in Hd at 1.
    apply app_inv_head in Hd. by subst d. }
  rewrite onChildAdded_unclaimed by done.
  unfold try_catch, guarded_run, bind. rewrite ref_update_cases.
  destruct (rejects env (trace w) _).
  { rewrite ref_update_cases. destruct (rejects env _ _); cbn;
      rewrite <- app_assoc; intros Hd; apply app_inv_head in Hd; subst d;
      intros [<- | [<- | []]]; done. }
  set (w0 := set_claim eventId true (log (ClaimUpdate eventId true) true w)).
  destruct (process_http_calls eventId eventData w0) as (dp & Hdp & Hcalls).
  rewrite Forall_forall in Hcalls.
  destruct (processDoorbellEvent eventId eventData w0) as [[[] | err] w1];
    cbn in Hdp.
  - cbn. rewrite Hdp. cbn. rewrite <- app_assoc. intros Hd.
    apply app_inv_head in Hd. subst d.
    intros [<- | Hin]; [done |]. by apply Hcalls, list_elem_of_In.
  - rewrite ref_update_cases. destruct (rejects env (trace w1) _); cbn;
      rewrite Hdp; cbn; rewrite <- !app_assoc; intros Hd;
      apply app_inv_head in Hd; subst d;
      intros Hin; cbn in Hin; destruct Hin as [<- | Hin]; try done;
      (apply in_app_or in Hin as [Hin | [<- | []]];
        [by apply Hcalls, list_elem_of_In | done]).
Qed.

(** X12. The write to the Result Sink replaces. After two accepted
    writes under the same id the stored result is the second one, the
    results are those of the start with that one entry set, and writing
    the same result twice leaves what one write leaves. A rejected write
    throws the store's error and stores nothing. *)
Theorem result_write_replaces eventId r1 r2 w :
  let w1 := snd (writeRecognitionResult eventId r1 w) in
  let w2 := snd (writeRecognitionResult eventId r2 w1) in
  (rejects env (trace w) (SinkSet eventId r1) = false ->
   rejects env (trace w1) (SinkSet eventId r2) = false ->
   results w2 !! eventId = Some r2 /\
   results w2 = <[eventId := r2]> (results w) /\
   (r1 = r2 -> results w2 = results w1)) /\
  (rejects env (trace w) (SinkSet eventId r1) = true ->
   fst (writeRecognitionResult eventId r1 w) = Throw FirebaseError /\
   results w1 = results w).
Proof.
  cbn zeta.
  assert (Hw : forall r w0,
            writeRecognitionResult eventId r w0 =
            if rejects env (trace w0) (SinkSet eventId r)
            then (Throw FirebaseError, log (SinkSet eventId r) false w0)
            else (Ok tt, set_result eventId r (log (SinkSet eventId r) true w0))).
  { intros r w0. unfold writeRecognitionResult, try_catch, resultRef_set, bind,
      request, modify, throw. by destruct (rejects env (trace w0) _). }
  split.
  - intros H1. rewrite (Hw r1 w), H1. cbn [snd]. intros H2.
    rewrite Hw, H2. cbn.
    split; [apply lookup_insert_eq |]. split; [apply insert_insert_eq |].
    intros ->. by rewrite insert_insert_eq.
  - intros H1. by rewrite (Hw r1 w), H1.
Qed.

(** ** The life cycle *)

Lemma initialize_invariant e s :
  (apps s <= 1)%nat /\ (listeners s <= apps s)%nat /\
  (isInitialized s = true <-> apps s = 1%nat) ->
  let s' := snd (initialize e s) in
  (apps s' <= 1)%nat /\ (listeners s' <= apps s')%nat /\
  (isInitialized s' = true <-> apps s' = 1%nat).
Proof.
  intros Hinv. cbn zeta. unfold initialize.
  destruct s as [flag a l]. cbn in *.
  destruct flag; [exact Hinv |].
  destruct (account_parses e); cbn; [| exact Hinv].
  destruct (app_accepted e); cbn; [| exact Hinv].
  destruct a as [| a]; cbn; [| exact Hinv].
  destruct (listener_attaches e); cbn; repeat split; lia.
Qed.

(** X13. Whatever calls of [initialize] a fresh process makes, and
    however each goes, it never holds more than one Firebase app nor
    more than one [child_added] listener, and [isInitialized] is set
    exactly when the app exists. *)
Theorem initialize_attaches_at_most_one_listener es :
  let s := initialize_all es fresh_boot in
  (apps s <= 1)%nat /\ (listeners s <= 1)%nat /\
  (isInitialized s = true <-> apps s = 1%nat).
Proof.
  cbn zeta.
  assert (H : forall s,
            (apps s <= 1)%nat /\ (listeners s <= apps s)%nat /\
            (isInitialized s = true <-> apps s = 1%nat) ->
            let s' := initialize_all es s in
            (apps s' <= 1)%nat /\ (listeners s' <= apps s')%nat /\
            (isInitialized s' = true <-> apps s' = 1%nat)).
  { induction es as [| e es IH]; intros s Hinv; [exact Hinv |].
    cbn. apply IH. by apply initialize_invariant. }
  destruct (H fresh_boot) as (Ha & Hl & Hi).
  { cbn. repeat split; try lia; discriminate. }
  repeat split; try lia; by apply Hi.
Qed.

Lemma initialize_all_initialized es s :
  isInitialized s = true -> initialize_all es s = s.
Proof.
  intros Hi. induction es as [| e es IH]; [done |].
  cbn. unfold initialize. by rewrite Hi.
Qed.

(** X14. Once a call of [initialize] has returned normally, every later
    call returns normally and changes nothing: no second app, no second
    listener. *)
Theorem initialize_is_idempotent e s s' :
  initialize e s = (Ok tt, s') ->
  isInitialized s' = true /\
  (forall e', initialize e' s' = (Ok tt, s')) /\
  (forall es, initialize_all es s' = s').
Proof.
  intros Hrun.
  assert (Hi : isInitialized s' = true).
  { revert Hrun. unfold initialize. destruct s as [flag a l]. cbn.
    destruct flag; [by intros [= <-] |].
    destruct (account_parses e); cbn; [| discriminate].
    destruct (app_accepted e); cbn; [| discriminate].
    destruct a as [| a]; cbn; [| discriminate].
    destruct (listener_attaches e); [by intros [= <-] | discriminate]. }
  split; [exact Hi |]. split.
  - intros e'. unfold initialize. by rewrite Hi.
  - intros es. by apply initialize_all_initialized.
Qed.

(** X15. When the first call that creates the app fails to attach the
    listener, it throws, but [isInitialized] is already set: every later
    call returns at once, and the service stays without a listener
    while it reports itself initialized. *)
Theorem failed_listener_is_never_attached e s :
  isInitialized s = false -> apps s = 0%nat ->
  account_parses e = true -> app_accepted e = true ->
  listener_attaches e = false ->
  exists s',
    initialize e s = (Throw FirebaseError, s') /\
    isInitialized s' = true /\ listeners s' = listeners s /\
    (forall e', initialize e' s' = (Ok tt, s')) /\
    (forall es, listeners (initialize_all es s') = listeners s).
Proof.
  intros Hi Ha Hp Hok Hl. unfold initialize.
  rewrite Hi, Hp, Hok, Ha, Hl. cbn. eexists. split; [reflexivity |].
  split; [done |]. split; [done |]. split; [done |].
  intros es. by rewrite initialize_all_initialized.
Qed.

(** ** The reading routes *)

(** X16. [GET /events] and [GET /results] never answer 500. They answer
    200 with [success] set and a count that is the number of entries
    returned. When the service has no app, when the limit is negative, when the
    read is rejected or finds nothing, the entries returned are the empty
    object and the count is 0; otherwise they are what the read gave. A
    limit that is absent, not a number or 0 is read as 50. *)
Theorem reading_routes_never_fail db raw :
  let limit := query_limit raw in
  let events := get_events db raw in
  let found := get_results db raw in
  (parseInt raw = None \/ parseInt raw = Some 0 -> limit = 50) /\
  lr_status events = 200%nat /\ lr_success events = true /\
  lr_status found = 200%nat /\ lr_success found = true /\
  (exists items,
     lr_items events = Some items /\ lr_count events = Some (size items) /\
     match limitToLast_once (db_ready db) (db_events db) limit with
     | Ok (Some read) => items = read
     | _ => items = ∅ /\ size items = 0%nat
     end) /\
  (exists items,
     lr_items found = Some items /\ lr_count found = Some (size items) /\
     match limitToLast_once (db_ready db) (db_results db) limit with
     | Ok (Some read) => items = read
     | _ => items = ∅ /\ size items = 0%nat
     end) /\
  (db_ready db = false \/ limit <= 0 ->
   lr_items events = Some ∅ /\ lr_count events = Some 0%nat /\
   lr_items found = Some ∅ /\ lr_count found = Some 0%nat).
Proof.
  cbn zeta. split.
  { unfold query_limit. by intros [-> | ->]. }
  unfold get_events, get_results, getEventHistory, getRecognitionResults.
  split; [by repeat case_match |]. split; [by repeat case_match |].
  split; [by repeat case_match |]. split; [by repeat case_match |].
  split; [| split].
  - destruct (limitToLast_once _ (db_events db) _) as [[read |] | err];
      eexists; (split; [reflexivity |]); (split; [reflexivity |]); done.
  - destruct (limitToLast_once _ (db_results db) _) as [[read |] | err];
      eexists; (split; [reflexivity |]); (split; [reflexivity |]); done.
  - intros Hbad.
    assert (Hthrow : forall A (read : Z -> Res (option (gmap string A))),
              limitToLast_once (db_ready db) read (query_limit raw)
              = Throw FirebaseError).
    { intros A read. unfold limitToLast_once.
      destruct Hbad as [-> | Hneg]; [done |].
      destruct (db_ready db); [| done]. cbn.
      by destruct (Z.leb_spec (query_limit raw) 0); [| lia]. }
    by rewrite !Hthrow.
Qed.

(** ** The visitor routes *)

Lemma doc_by_id_Some i vs v :
  doc_by_id i vs = Some v -> In v vs /\ v_id v = i.
Proof.
  intros H. apply List.find_some in H as [Hin Hid].
  by apply N.eqb_eq in Hid.
Qed.

Lemma store_doc_ids v' vs :
  List.map v_id (store_doc v' vs) = List.map v_id vs.
Proof.
  induction vs as [| u vs IH]; [done |].
  unfold store_doc in *. cbn [List.map].
  destruct (N.eqb (v_id u) (v_id v')) eqn:E; f_equal; try exact IH.
  symmetry. by apply N.eqb_eq.
Qed.

Lemma In_store_doc u v' vs :
  In u (store_doc v' vs) ->
  u = v' \/ (In u vs /\ v_id u <> v_id v').
Proof.
  induction vs as [| x vs IH]; [done |].
  unfold store_doc in *. cbn [List.map].
  destruct (N.eqb (v_id x) (v_id v')) eqn:E.
  - intros [<- | Hin]; [by left |].
    destruct (IH Hin) as [-> | [? ?]]; [by left | right; split; [by right | done]].
  - intros [<- | Hin].
    + right. split; [by left |]. by apply N.eqb_neq.
    + destruct (IH Hin) as [-> | [? ?]]; [by left | right; split; [by right | done]].
Qed.

Lemma find_weaker {A} (f g : A -> bool) l :
  (forall x, g x = true -> f x = true) ->
  List.find f l = None -> List.find g l = None.
Proof.
  intros Hfg. induction l as [| y l IH]; [done |].
  cbn. destruct (f y) eqn:Hf; [discriminate |]. intros Hnone.
  destruct (g y) eqn:Hg; [| by apply IH].
  apply Hfg in Hg. congruence.
Qed.

Lemma find_app_none {A} (f : A -> bool) l x :
  List.find f l = None -> List.find f (l ++ [x]) = if f x then Some x else None.
Proof.
  induction l as [| y l IH]; [done |].
  cbn. destruct (f y); [discriminate | exact IH].
Qed.

(** X17. [POST /visitors] answers 201, 400 or 500, and only a 201 changes
    the collection. A 201 appends one document and returns it: its name
    is the trimmed name of the request and is not empty, it is
    authorized, has no visit, and no visitor already stored had a name
    the pattern of the request matched. A request without a name, or with
    an empty one, is answered 400 before any call. *)
Theorem post_visitor_outcomes admin_email body vs :
  let reply := fst (post_visitor admin_email body vs) in
  let vs' := snd (post_visitor admin_email body vs) in
  (rp_status reply = 201%nat \/ rp_status reply = 400%nat \/
   rp_status reply = 500%nat) /\
  (truthy_string (b_name body) = None -> rp_status reply = 400%nat) /\
  (rp_status reply <> 201%nat -> vs' = vs /\ rp_visitor reply = None) /\
  (rp_status reply = 201%nat ->
   exists name re doc,
     truthy_string (b_name body) = Some name /\
     RegExp_i name = Some re /\
     rp_visitor reply = Some doc /\ vs' = vs ++ [doc] /\
     v_id doc = ObjectId store vs /\
     v_name doc = trim name /\ v_name doc <> "" /\
     v_isAuthorized doc = true /\ v_visitCount doc = 0 /\
     v_lastVisit doc = None /\
     List.find (fun v => re_test re (v_name v)) vs = None).
Proof.
  cbn zeta. unfold post_visitor. cbv zeta.
  destruct (truthy_string (b_name body)) as [name |].
  2: { cbn. split; [by right; left |]. split; [done |].
       split; [done | discriminate]. }
  destruct (RegExp_i name) as [re |] eqn:Hre.
  2: { cbn. split; [by right; right |]. split; [done |].
       split; [done | discriminate]. }
  destruct (op_rejects store vs (FindByName name)).
  { cbn. split; [by right; right |]. split; [done |].
    split; [done | discriminate]. }
  destruct (List.find _ vs) as [dup |] eqn:Hfind.
  { cbn. split; [by right; left |]. split; [done |].
    split; [done | discriminate]. }
  destruct (String.eqb (v_name (new_Visitor admin_email body (ObjectId store vs) name)) "")
    eqn:Hname.
  { cbn. split; [by right; right |]. split; [done |].
    split; [done | discriminate]. }
  destruct (op_rejects store vs (Insert _)).
  { cbn. split; [by right; right |]. split; [done |].
    split; [done | discriminate]. }
  cbn [fst snd rp_status rp_visitor].
  split; [by left |]. split; [done |]. split; [done |]. intros _.
  eexists name, re, _.
  split; [done |]. split; [done |]. split; [done |]. split; [done |].
  split; [done |]. split; [done |]. split; [| done].
  by apply String.eqb_neq.
Qed.

(** X18. The duplicate check of [POST /visitors] is a pattern match. If
    the name of the request compiles to a pattern that matches the name
    of some stored visitor, authorized or not, and the lookup is
    answered, the request is refused with 400 and nothing is stored. *)
Theorem post_visitor_refuses_pattern_match admin_email body vs name re v :
  truthy_string (b_name body) = Some name ->
  RegExp_i name = Some re ->
  op_rejects store vs (FindByName name) = false ->
  In v vs -> re_test re (v_name v) = true ->
  post_visitor admin_email body vs =
    (reply_error 400 "Visitor with this name already exists", vs).
Proof.
  intros Hname Hre Hup Hin Hmatch. unfold post_visitor.
  rewrite Hname, Hre, Hup.
  destruct (List.find _ vs) as [dup |] eqn:Hfind; [done |].
  eapply List.find_none in Hfind; [| exact Hin]. cbn in Hfind. congruence.
Qed.

(** X19. A visitor just added is the one the pipeline authorizes. After
    a 201 for a name whose pattern matches the name as stored, the lookup
    of that name as a candidate finds the new document, and validation of
    an outcome that names it answers [authorized] with the stored name
    and records the first visit. *)
Theorem added_visitor_is_authorized admin_email body vs name re o w :
  truthy_string (b_name body) = Some name ->
  rp_status (fst (post_visitor admin_email body vs)) = 201%nat ->
  RegExp_i name = Some re ->
  re_test re (trim name) = true ->
  visitors w = snd (post_visitor admin_email body vs) ->
  store_reachable ->
  success o = true -> authenticated o = true ->
  recognized_names o = Some [name] ->
  exists doc w',
    rp_visitor (fst (post_visitor admin_email body vs)) = Some doc /\
    authorized_match re (visitors w) = Some doc /\
    validateVisitor o w =
      (Ok {| isAuthorized := true; visitorName := trim name |}, w') /\
    option_map v_visitCount (doc_by_id (v_id doc) (visitors w')) = Some 1.
Proof.
  intros Hname H201 Hre Hmatch Hvs Hup Hs Ha Hnames.
  destruct (post_visitor_outcomes admin_email body vs) as (_ & _ & _ & Hadd).
  destruct (Hadd H201)
    as (name' & re' & doc & Hname' & Hre' & Hdoc & Hvs' & _ & Hn & _ & Hauth
        & Hcount & _ & Hnone).
  rewrite Hname in Hname'. injection Hname' as <-.
  rewrite Hre in Hre'. injection Hre' as <-.
  assert (Hhit : authorized_match re (visitors w) = Some doc).
  { rewrite Hvs, Hvs'. unfold authorized_match. rewrite find_app_none.
    - by rewrite Hauth, Hn, Hmatch.
    - eapply find_weaker; [| exact Hnone].
      intros x Hx. cbn. by apply andb_true_iff in Hx as [_ ?]. }
  destruct (lookup_loop_hit name [] name re doc Hup Hre [] w
              (List.Forall_nil _) Hhit) as (now & w' & Hloop & _ & Hstore & _).
  exists doc, w'. split; [exact Hdoc |]. split; [exact Hhit |]. split.
  - rewrite (validateVisitor_names o name []) by done.
    unfold try_catch. cbn [app] in Hloop. by rewrite Hloop, Hn.
  - rewrite Hstore. rewrite (doc_by_id_saved (visit doc now)).
    + cbn. by rewrite Hcount.
    + exists doc. split; [| done]. by apply authorized_match_In in Hhit as [? _].
Qed.

(** X20. [PUT /visitors/:id] answers 200, 404 or 500, and only a 200
    changes the collection. A 200 saves the document of that id with the
    fields of the request assigned: the visit count, the last visit, the
    id and [addedBy] are kept, the name is kept when the request gives
    none or an empty one, the saved name is not empty, and the ids of the
    collection are as before. The answer is 404 when the lookup is
    answered and no document has the id. *)
Theorem put_visitor_outcomes id body vs :
  let reply := fst (put_visitor id body vs) in
  let vs' := snd (put_visitor id body vs) in
  (rp_status reply = 200%nat \/ rp_status reply = 404%nat \/
   rp_status reply = 500%nat) /\
  (rp_status reply <> 200%nat -> vs' = vs) /\
  (forall i, id = Some i -> op_rejects store vs (FindById i) = false ->
             doc_by_id i vs = None -> rp_status reply = 404%nat) /\
  (rp_status reply = 200%nat ->
   exists i old new,
     id = Some i /\ doc_by_id i vs = Some old /\
     new = assign_fields body old /\
     rp_visitor reply = Some new /\ vs' = store_doc new vs /\
     v_id new = i /\ v_visitCount new = v_visitCount old /\
     v_lastVisit new = v_lastVisit old /\ v_addedBy new = v_addedBy old /\
     (truthy_string (b_name body) = None -> v_name new = v_name old) /\
     v_name new <> "" /\
     List.map v_id vs' = List.map v_id vs).
Proof.
  cbn zeta. unfold put_visitor. cbv zeta.
  destruct id as [i |].
  2: { cbn. split; [by right; right |]. split; [done |].
       split; [done | discriminate]. }
  destruct (op_rejects store vs (FindById i)) eqn:Hfind.
  { cbn. split; [by right; right |]. split; [done |]. split; [| discriminate].
    by intros ? [= <-]; rewrite Hfind. }
  destruct (doc_by_id i vs) as [old |] eqn:Hdoc.
  2: { cbn. split; [by right; left |]. split; [done |].
       split; [done | discriminate]. }
  destruct (String.eqb (v_name (assign_fields body old)) "") eqn:Hname.
  { cbn. split; [by right; right |]. split; [done |]. split; [| discriminate].
    intros ? [= <-] _ Hnone. congruence. }
  destruct (op_rejects store vs (Update _)).
  { cbn. split; [by right; right |]. split; [done |]. split; [| discriminate].
    intros ? [= <-] _ Hnone. congruence. }
  cbn [fst snd rp_status rp_visitor].
  split; [by left |]. split; [done |].
  split; [intros ? [= <-] _ Hnone; congruence |].
  intros _. exists i, old, (assign_fields body old).
  destruct (doc_by_id_Some _ _ _ Hdoc) as [_ Hid].
  split; [done |]. split; [done |]. split; [done |]. split; [done |].
  split; [done |]. split; [done |]. split; [done |]. split; [done |].
  split; [done |]. split; [| split].
  - cbn. intros Hnone. by rewrite Hnone.
  - by apply String.eqb_neq.
  - apply store_doc_ids.
Qed.

(** X21. Revoking a visitor takes it out of the pipeline's reach. After
    a 200 of [PUT /visitors/:id] with [isAuthorized: false], no lookup
    of the pipeline, whatever the candidate, returns a document of that
    id. *)
Theorem revoked_visitor_is_never_matched i body vs re v :
  rp_status (fst (put_visitor (Some i) body vs)) = 200%nat ->
  b_isAuthorized body = Some false ->
  authorized_match re (snd (put_visitor (Some i) body vs)) = Some v ->
  v_id v <> i.
Proof.
  intros H200 Hrevoke Hhit.
  destruct (put_visitor_outcomes (Some i) body vs) as (_ & _ & _ & Hput).
  destruct (Hput H200)
    as (i' & old & new & [= <-] & _ & -> & _ & Hvs' & Hid & _).
  rewrite Hvs' in Hhit. apply authorized_match_In in Hhit as (Hin & Hauth & _).
  apply In_store_doc in Hin as [-> | [_ Hne]].
  - cbn in Hauth. rewrite Hrevoke in Hauth. discriminate.
  - by rewrite Hid in Hne.
Qed.

Lemma remove_doc_spec i vs :
  List.NoDup (List.map v_id vs) ->
  doc_by_id i (remove_doc i vs) = None /\
  (forall j, j <> i -> doc_by_id j (remove_doc i vs) = doc_by_id j vs) /\
  List.NoDup (List.map v_id (remove_doc i vs)) /\
  (forall u, In u (remove_doc i vs) -> In u vs).
Proof.
  induction vs as [| u vs IH]; intros Hnd; [by repeat split; try constructor |].
  cbn in Hnd. inversion Hnd as [| ? ? Hnotin Hnd']; subst.
  destruct (IH Hnd') as (IH1 & IH2 & IH3 & IH4).
  cbn [remove_doc]. destruct (N.eqb (v_id u) i) eqn:E.
  - apply N.eqb_eq in E. subst i. split; [| split; [| split]].
    + destruct (doc_by_id (v_id u) vs) as [x |] eqn:Hx; [| done].
      apply doc_by_id_Some in Hx as [Hin Hid]. destruct Hnotin.
      rewrite <- Hid. by apply List.in_map.
    + intros j Hj. cbn. destruct (N.eqb (v_id u) j) eqn:Ej; [| done].
      apply N.eqb_eq in Ej. congruence.
    + exact Hnd'.
    + intros x Hx. by right.
  - split; [| split; [| split]].
    + cbn. by rewrite E.
    + intros j Hj. cbn. destruct (N.eqb (v_id u) j); [done | by apply IH2].
    + cbn. constructor; [| exact IH3]. intros Hin.
      apply List.in_map_iff in Hin as (x & Hx & Hin). destruct Hnotin.
      rewrite <- Hx. apply List.in_map. by apply IH4.
    + intros x [<- | Hx]; [by left | right; by apply IH4].
Qed.

(** X22. [DELETE /visitors/:id] answers 200, 404 or 500, and only a 200
    changes the collection. With one document per [_id], after a 200 no
    document has the id, every other id finds the document it found
    before, and no document was added. The answer is 404, with the
    collection unchanged, when no document has the id. *)
Theorem delete_visitor_outcomes id vs :
  List.NoDup (List.map v_id vs) ->
  let reply := fst (delete_visitor id vs) in
  let vs' := snd (delete_visitor id vs) in
  (rp_status reply = 200%nat \/ rp_status reply = 404%nat \/
   rp_status reply = 500%nat) /\
  (rp_status reply <> 200%nat -> vs' = vs) /\
  (forall i, id = Some i -> op_rejects store vs (FindById i) = false ->
             doc_by_id i vs = None -> rp_status reply = 404%nat) /\
  (rp_status reply = 200%nat ->
   exists i,
     id = Some i /\ doc_by_id i vs <> None /\
     doc_by_id i vs' = None /\
     (forall j, j <> i -> doc_by_id j vs' = doc_by_id j vs) /\
     (forall u, In u vs' -> In u vs)).
Proof.
  intros Hnd. cbn zeta. unfold delete_visitor. cbv zeta.
  destruct id as [i |].
  2: { cbn. split; [by right; right |]. split; [done |].
       split; [done | discriminate]. }
  destruct (op_rejects store vs (FindById i)) eqn:Hfind.
  { cbn. split; [by right; right |]. split; [done |]. split; [| discriminate].
    by intros ? [= <-]; rewrite Hfind. }
  destruct (doc_by_id i vs) as [old |] eqn:Hdoc.
  2: { cbn. split; [by right; left |]. split; [done |].
       split; [done | discriminate]. }
  destruct (op_rejects store vs (Delete i)).
  { cbn. split; [by right; right |]. split; [done |]. split; [| discriminate].
    intros ? [= <-] _ Hnone. congruence. }
  cbn [fst snd rp_status rp_visitor].
  split; [by left |]. split; [done |].
  split; [intros ? [= <-] _ Hnone; congruence |].
  intros _. exists i. destruct (remove_doc_spec i vs Hnd) as (H1 & H2 & _ & H4).
  split; [done |]. split; [by rewrite Hdoc |]. by repeat split.
Qed.

Lemma store_doc_names v' vs :
  v_name v' <> "" ->
  Forall (fun v => v_name v <> "") vs ->
  Forall (fun v => v_name v <> "") (store_doc v' vs).
Proof.
  intros Hn Hall. rewrite Forall_forall in Hall |- *.
  intros u Hu. apply list_elem_of_In, In_store_doc in Hu as [-> | [Hin _]];
    [done |]. by apply Hall, list_elem_of_In.
Qed.

(** X23. The routes and the pipeline keep the collection well formed.
    If the collection holds one document per [_id] and no empty name,
    it still does after [PUT /visitors/:id], after
    [DELETE /visitors/:id], after any delivery of an event to the
    listener, and after [POST /visitors] when the [_id] given to the new
    document is not in use. *)
Theorem collection_stays_well_formed vs :
  well_formed_store vs ->
  (forall id body, well_formed_store (snd (put_visitor id body vs))) /\
  (forall id, well_formed_store (snd (delete_visitor id vs))) /\
  (forall eventId eventData w,
     visitors w = vs ->
     well_formed_store (visitors (snd (onChildAdded eventId eventData w)))) /\
  (forall admin_email body,
     ~ In (ObjectId store vs) (List.map v_id vs) ->
     well_formed_store (snd (post_visitor admin_email body vs))).
Proof.
  intros [Hnd Hnames]. split; [| split; [| split]].
  - intros id body.
    destruct (put_visitor_outcomes id body vs) as (_ & Hsame & _ & Hput).
    destruct (decide (rp_status (fst (put_visitor id body vs)) = 200%nat))
      as [H200 | Hnot].
    + destruct (Hput H200)
        as (i & old & new & _ & _ & _ & _ & -> & _ & _ & _ & _ & _ & Hn & Hids).
      split; [by rewrite store_doc_ids | by apply store_doc_names].
    + by rewrite (Hsame Hnot).
  - intros id.
    destruct (delete_visitor_outcomes id vs Hnd) as (_ & Hsame & _ & Hdel).
    destruct (decide (rp_status (fst (delete_visitor id vs)) = 200%nat))
      as [H200 | Hnot].
    + revert H200 Hdel. unfold delete_visitor.
      destruct id as [i |]; [| discriminate]. 
      destruct (op_rejects store vs (FindById i)); [discriminate |].
      destruct (doc_by_id i vs); [| discriminate].
      destruct (op_rejects store vs (Delete i)); [discriminate |]. cbn.
      intros _ _. destruct (remove_doc_spec i vs Hnd) as (_ & _ & H3 & H4).
      split; [exact H3 |]. rewrite Forall_forall in Hnames |- *.
      intros u Hu. by apply Hnames, list_elem_of_In, H4, list_elem_of_In.
    + by rewrite (Hsame Hnot).
  - intros eventId eventData w <-.
    destruct (delivery_visitors eventId eventData w)
      as [-> | (v & now & Hin & _ & ->)]; [done |].
    split; [by rewrite store_doc_ids |]. apply store_doc_names; [| done].
    cbn. rewrite Forall_forall in Hnames. by apply Hnames, list_elem_of_In.
  - intros admin_email body Hfresh.
    destruct (post_visitor_outcomes admin_email body vs) as (_ & _ & Hsame & Hadd).
    destruct (decide (rp_status (fst (post_visitor admin_email body vs)) = 201%nat))
      as [H201 | Hnot].
    + destruct (Hadd H201)
        as (name & re & doc & _ & _ & _ & -> & Hid & _ & Hn & _).
      split.
      * rewrite List.map_app. cbn. rewrite Hid.
        apply NoDup_ListNoDup, NoDup_app. split; [by apply NoDup_ListNoDup |].
        split; [| apply NoDup_singleton].
        intros x Hx Hx'. apply list_elem_of_singleton in Hx'. subst x.
        by apply Hfresh, list_elem_of_In.
      * apply Forall_app. split; [done | by constructor].
    + by destruct (Hsame Hnot) as [-> _].
Qed.

(** X24. [GET /status] answers 200 or 500. In a 200 the total is the
    number of documents of the collection, the number of authorized
    visitors never exceeds it, the two are equal exactly when every
    visitor is authorized, and [firebaseConnected] is the
    [isInitialized] flag of the service. *)
Theorem status_counts boot vs :
  let reply := get_status boot vs in
  (st_status reply = 200%nat \/ st_status reply = 500%nat) /\
  (st_status reply = 200%nat ->
   exists total authorized,
     st_totalVisitors reply = Some total /\
     st_authorizedVisitors reply = Some authorized /\
     total = List.length vs /\ (authorized <= total)%nat /\
     (authorized = total <-> Forall (fun v => v_isAuthorized v = true) vs) /\
     st_firebaseConnected reply = Some (isInitialized boot)).
Proof.
  cbn zeta. unfold get_status.
  destruct (op_rejects store vs Count); [by split; [right |] |].
  destruct (op_rejects store vs CountAuthorized); [by split; [right |] |].
  cbn. split; [by left |]. intros _. do 2 eexists.
  split; [reflexivity |]. split; [reflexivity |]. split; [reflexivity |].
  assert (Hlen : forall l : list Visitor,
            (List.length (List.filter v_isAuthorized l) <= List.length l)%nat /\
            (List.length (List.filter v_isAuthorized l) = List.length l <->
             Forall (fun v => v_isAuthorized v = true) l)).
  { induction l as [| u l [IH1 IH2]];
      [split; [done |]; split; [constructor | done] |].
    cbn. destruct (v_isAuthorized u) eqn:E; cbn.
    - split; [lia |]. split.
      + intros [= Hl]. constructor; [done | by apply IH2].
      + intros Hall. inversion Hall; subst. f_equal. by apply IH2.
    - split; [lia |]. split; [lia |].
      intros Hall. inversion Hall; subst. congruence. }
  destruct (Hlen vs) as [H1 H2]. split; [exact H1 |]. split; [exact H2 | done].
Qed.
End Service.

(** ** The candidate name as a pattern *)

Lemma find_ext {A} (f g : A -> bool) (l : list A) :
  (forall x, f x = g x) -> List.find f l = List.find g l.
Proof.
  intros Hfg. induction l as [| x l IH]; [done |].
  cbn. by rewrite Hfg, IH.
Qed.

(** [.*] matches every string. *)
Lemma dot_star_matches_all r s :
  JsRegExp.compile ".*" = Some r -> JsRegExp.test r s = true.
Proof.
  intros [= <-]. unfold JsRegExp.test.
  by destruct (list_ascii_of_string s).
Qed.

(** C9, as the service has it. The lookup takes the candidate as a
    case-insensitive pattern.
    For any engine: an answered lookup returns the first authorized
    visitor whose name the compiled pattern matches; and a candidate the
    constructor rejects, reached without a hit before it, makes
    validation answer as when the store is unreachable, with the first
    candidate (or "unknown" if that is empty) and [authorized = false],
    saving nothing. For the engine of the fragment: the candidate [.*]
    is answered with the first authorized visitor of the store whatever
    its name is; the candidates [.] and [.*] authorize Ali Hassan though
    they share no character with that name and are not substrings of
    it; [ALI] does so by case folding; and [(] is rejected. *)
Theorem candidate_is_a_pattern :
  (forall (RE : RegExpEngine) env pattern re w,
     RegExp_i pattern = Some re ->
     rejects env (trace w) (FindOne pattern) = false ->
     fst (Visitor_findOne env pattern re w) =
     Ok (List.find (fun v => v_isAuthorized v && re_test re (v_name v))
                   (visitors w))) /\
  (forall (RE : RegExpEngine) env o w pre bad post,
     success o = true -> authenticated o = true ->
     recognized_names o = Some (pre ++ bad :: post) ->
     RegExp_i bad = None ->
     Forall (no_hit (visitors w)) pre ->
     exists w',
       validateVisitor env o w =
         (Ok {| isAuthorized := false;
                visitorName := js_or (Some (hd bad pre)) "unknown" |}, w') /\
       visitors w' = visitors w) /\
  (forall env w v,
     store_reachable env ->
     List.find v_isAuthorized (visitors w) = Some v ->
     fst (validateVisitor (RE := JsRegExp.engine) env (names_outcome [".*"]) w)
     = Ok {| isAuthorized := true; visitorName := v_name v |}) /\
  (forall candidate, In candidate ["."; ".*"; "ALI"] ->
     fst (validateVisitor (RE := JsRegExp.engine)
            (sample_env nothing_down (names_outcome [candidate]))
            (names_outcome [candidate]) sample_world)
     = Ok {| isAuthorized := true; visitorName := "Ali Hassan" |}) /\
  disjoint_chars "." "Ali Hassan" = true /\
  disjoint_chars ".*" "Ali Hassan" = true /\
  literal_match "." "Ali Hassan" = false /\
  literal_match ".*" "Ali Hassan" = false /\
  RegExp_i (RegExpEngine := JsRegExp.engine) "(" = None.
Proof.
  split; [| split; [| split; [| split]]].
  - intros RE env pattern re w _ Hup. by apply lookup_is_a_pattern_match.
  - intros RE env o w pre bad post Hs Ha Hn Hbad Hpre.
    by apply rejected_pattern_falls_back with (post := post).
  - intros env w v Hup Hfind.
    destruct (JsRegExp.compile ".*") as [r |] eqn:Hr; [| discriminate].
    assert (Hhit : authorized_match (RE := JsRegExp.engine) r (visitors w) = Some v).
    { unfold authorized_match. rewrite <- Hfind. apply find_ext.
      intros x. cbn. rewrite (dot_star_matches_all r) by done.
      apply andb_true_r. }
    destruct (lookup_loop_hit (RE := JsRegExp.engine) env ".*" [] ".*" r v
                Hup Hr [] w (List.Forall_nil _) Hhit) as (now & w' & Hloop & _).
    rewrite (validateVisitor_names env (names_outcome [".*"]) ".*" []) by done.
    unfold try_catch. cbn [app] in Hloop. by rewrite Hloop.
  - intros candidate [<- | [<- | [<- | []]]]; reflexivity.
  - repeat split; reflexivity.
Qed.

(** ** Where the service departs from its description *)

(** C6, at an event that has no image, no URL, no [timestamp] and no
    [createdAt] (a device id and a message type only). Whatever the
    environment, the listener sets the claim, the run throws before the
    recognition stage, the claim is reset, and that is all: the
    recognition results are those of before, so no terminal result is
    persisted for the event. *)
Theorem imageless_event_without_timestamp_is_dropped
    (RE : RegExpEngine) Date_parse env eventId w :
  processDoorbellEvent Date_parse env eventId bare_event w
    = (Throw RangeError, w) /\
  exists marked reset,
    trace (snd (onChildAdded Date_parse env eventId bare_event w)) =
      trace w ++ [{| e_call := ClaimUpdate eventId true; e_ok := marked |};
                  {| e_call := ClaimUpdate eventId false; e_ok := reset |}] /\
    results (snd (onChildAdded Date_parse env eventId bare_event w)) = results w.
Proof.
  split; [by apply process_without_timestamps |].
  destruct (listener_without_timestamps Date_parse env eventId bare_event w)
    as (marked & reset & res & w' & Hrun & Ht & _ & Hr & _); try done.
  exists marked, reset. by rewrite Hrun.
Qed.

(** C8, at an event whose image is given by URL. The request that
    fetches the image is logged with the options of the service, which
    hold no timeout, whereas the options of the call to the oracle hold
    one of 30000 ms. *)
Theorem image_fetch_carries_no_timeout (RE : RegExpEngine) env w :
  (exists img ok,
     acquireImage env url_event w =
       (Ok img,
        log (HttpGet "http://192.168.1.20/capture.jpg" get_config) ok w)) /\
  cfg_timeout get_config = None /\
  (forall img, exists url data,
     recognize_call img = HttpPost url data post_config) /\
  cfg_timeout post_config = Some 30000%N.
Proof.
  split; [| split; [done | split; [| done]]].
  - destruct (image_fetch_request env url_event w) as (img & ok & H & _);
      [done | done |]. by exists img, ok.
  - intros img. by do 2 eexists.
Qed.

(** C7 as stated fails when the first candidate is the empty string: the
    store rejects the lookup, and the name of the persisted result is
    "unknown", not the first candidate. *)
Lemma empty_first_candidate_falls_back_to_unknown :
  let env := sample_env store_down (names_outcome [""]) in
  let run := processDoorbellEvent (RE := JsRegExp.engine) no_Date_parse env
               "e1" inline_event sample_world in
  recognized_names (oracle_reply env [] "/9j/4AAQSkZJRg==") = Some [""] /\
  In {| e_call := FindOne ""; e_ok := false |} (trace (snd run)) /\
  fst run = Ok tt /\
  exists r,
    results (snd run) !! "e1" = Some r /\
    r_authorized r = false /\ r_name r = "unknown" /\
    r_name r <> hd "unknown" [""].
Proof.
  cbn zeta. split; [reflexivity |]. split; [vm_compute; tauto |].
  split; [reflexivity |].
  eexists. split; [vm_compute; reflexivity |].
  split; [reflexivity |]. split; [reflexivity |]. discriminate.
Qed.

(** C1 as stated fails when a candidate before the match is a pattern
    the constructor rejects: [ali] matches the authorized visitor Ali
    Hassan, yet the result is not authorized, bears the name of the
    first candidate, and no visit is recorded. *)
Lemma rejected_pattern_before_the_match_blocks_it :
  let env := sample_env nothing_down (names_outcome ["("; "ali"]) in
  let run := processDoorbellEvent (RE := JsRegExp.engine) no_Date_parse env
               "e1" inline_event sample_world in
  (exists re, RegExp_i (RegExpEngine := JsRegExp.engine) "ali" = Some re /\
              authorized_match re (visitors sample_world) = Some ali) /\
  fst run = Ok tt /\
  (exists r, results (snd run) !! "e1" = Some r /\
             r_authorized r = false /\ r_name r = "(") /\
  visitors (snd run) = visitors sample_world.
Proof.
  cbn zeta. split; [eexists; split; reflexivity |].
  split; [reflexivity |]. split; [| reflexivity].
  eexists. split; [vm_compute; reflexivity |]. split; reflexivity.
Qed.

(** C5 as stated fails on an outcome that is authenticated, names
    nobody, and has [success = false]: the name of the result follows the
    message, here "unclassified", and is not "unknown". *)
Lemma unsuccessful_outcome_without_names_follows_the_message :
  let o := {| success := false; authenticated := true;
              message := Some "unclassified - low confidence";
              recognized_names := Some [] |} in
  let env := sample_env nothing_down o in
  let run := processDoorbellEvent (RE := JsRegExp.engine) no_Date_parse env
               "e1" inline_event sample_world in
  authenticated o = true /\ recognized_names o = Some [] /\
  fst run = Ok tt /\
  exists r, results (snd run) !! "e1" = Some r /\
            r_name r = "unclassified" /\ r_name r <> "unknown".
Proof.
  cbn zeta. split; [reflexivity |]. split; [reflexivity |].
  split; [reflexivity |].
  eexists. split; [vm_compute; reflexivity |]. split; [reflexivity |].
  discriminate.
Qed.

(** C9 as stated fails on the fallback it names when the first candidate
    is the empty string: no visitor of the store is authorized, so the
    empty pattern finds none, the next candidate is rejected by the
    constructor, and the name of the answer is "unknown", not the first
    candidate. *)
Lemma rejected_pattern_after_empty_candidate_gives_unknown :
  let o := names_outcome [""; "("] in
  let w := {| claims := ∅; visitors := [sara]; results := ∅; sent := [];
              trace := [] |} in
  let run := validateVisitor (RE := JsRegExp.engine)
               (sample_env nothing_down o) o w in
  RegExp_i (RegExpEngine := JsRegExp.engine) "(" = None /\
  fst run = Ok {| isAuthorized := false; visitorName := "unknown" |} /\
  "unknown" <> hd "unknown" [""; "("].
Proof. cbn zeta. split; [reflexivity |]. split; [reflexivity |]. discriminate. Qed.

(** ** Instances on the sample data *)

Lemma redelivery_of_claimed_event_is_noop_witness :
  ev_processed claimed_event = Some true /\
  onChildAdded (RE := JsRegExp.engine) no_Date_parse
    (sample_env nothing_down (names_outcome ["Ali"])) "e1" claimed_event
    sample_world = (Ok tt, sample_world).
Proof.
  split; [reflexivity |].
  apply redelivery_of_claimed_event_is_noop. reflexivity.
Defined.

Lemma event_without_timestamps_is_never_resolved_witness :
  ev_timestamp bare_event = None /\ ev_createdAt bare_event = None /\
  processDoorbellEvent (RE := JsRegExp.engine) no_Date_parse
    (sample_env nothing_down (names_outcome ["Ali"])) "e1" bare_event
    sample_world = (Throw RangeError, sample_world).
Proof.
  split; [reflexivity |]. split; [reflexivity |].
  exact (proj1 (event_without_timestamps_is_never_resolved
                  (RE := JsRegExp.engine) no_Date_parse
                  (sample_env nothing_down (names_outcome ["Ali"]))
                  "e1" bare_event sample_world eq_refl eq_refl)).
Defined.

Lemma failed_run_resets_claim_witness :
  let env := sample_env sink_down (names_outcome ["Ali"]) in
  let run := guarded_run (RE := JsRegExp.engine) no_Date_parse env
               "e1" inline_event sample_world in
  ev_processed inline_event <> Some true /\
  fst run = Throw FirebaseError /\
  exists (reset : bool) w' d,
    onChildAdded (RE := JsRegExp.engine) no_Date_parse env "e1" inline_event
      sample_world = (if reset then Ok tt else Throw FirebaseError, w') /\
    trace w' = trace (snd run) ++
      [{| e_call := ClaimUpdate "e1" false; e_ok := reset |}] /\
    (reset = true -> claims w' !! "e1" = Some false) /\
    sent w' = sent sample_world /\
    trace w' = trace sample_world ++ d /\
    Forall (fun e => is_send (e_call e) = false) d.
Proof.
  cbn zeta. split; [discriminate |]. split; [reflexivity |].
  refine (proj2 (failed_run_resets_claim (RE := JsRegExp.engine) no_Date_parse
                   (sample_env sink_down (names_outcome ["Ali"]))
                   "e1" inline_event sample_world _ _ _ _) _).
  - discriminate.
  - apply surjective_pairing.
  - exists FirebaseError. reflexivity.
Defined.

Lemma oracle_fault_is_absorbed_witness :
  let env := sample_env oracle_down (names_outcome ["Ali"]) in
  let img := Some "/9j/4AAQSkZJRg==" in
  actualTimestamp no_Date_parse inline_event sample_world
    = (Ok (TsRaw "2025-12-29 08:40:35 PM"), sample_world) /\
  acquireImage env inline_event sample_world = (Ok img, sample_world) /\
  truthy_opt img = true /\
  rejects env (trace sample_world) (recognize_call img) = true /\
  exists r,
    r_recognized r = false /\ r_name r = "unclassified" /\
    r_authorized r = false /\
    result_handed_to_sink (RE := JsRegExp.engine) no_Date_parse env "e1"
      inline_event sample_world r
      (log (recognize_call img) false sample_world).
Proof.
  cbn zeta. do 4 (split; [reflexivity |]).
  refine (proj2 (proj2 (oracle_fault_is_absorbed (RE := JsRegExp.engine)
            no_Date_parse (sample_env oracle_down (names_outcome ["Ali"]))
            "e1" inline_event sample_world _ _ sample_world _ _ _ _)));
    reflexivity.
Defined.

Lemma unauthenticated_outcome_result_witness :
  let env := sample_env nothing_down (names_outcome ["Ali"]) in
  actualTimestamp no_Date_parse imageless_event sample_world
    = (Ok (TsRaw "2025-12-29 08:40:35 PM"), sample_world) /\
  acquireImage env imageless_event sample_world = (Ok None, sample_world) /\
  callFacialRecognition env None sample_world
    = (Ok no_image_outcome, sample_world) /\
  success no_image_outcome = false /\
  exists r,
    result_handed_to_sink (RE := JsRegExp.engine) no_Date_parse env "e1"
      imageless_event sample_world r sample_world /\
    r_authorized r = false /\ r_name r = "unclassified".
Proof.
  cbn zeta. do 4 (split; [reflexivity |]).
  refine (proj1 (unauthenticated_outcome_result (RE := JsRegExp.engine)
            no_Date_parse (sample_env nothing_down (names_outcome ["Ali"]))
            "e1" imageless_event sample_world
            (TsRaw "2025-12-29 08:40:35 PM") None sample_world
            no_image_outcome sample_world _ _ _) _); try reflexivity.
  left. reflexivity.
Defined.

Lemma first_authorized_match_wins_witness :
  let o := names_outcome ["Stranger"; "ali"; "Sara"] in
  let env := sample_env nothing_down o in
  let img := Some "/9j/4AAQSkZJRg==" in
  let w2 := log (recognize_call img) true sample_world in
  let now := 1700000000003 in
  callFacialRecognition env img sample_world = (Ok o, w2) /\
  recognized_names o = Some (["Stranger"] ++ "ali" :: ["Sara"]) /\
  store_reachable env /\
  Forall (no_hit (RE := JsRegExp.engine) (visitors sample_world)) ["Stranger"] /\
  (exists re, RegExp_i (RegExpEngine := JsRegExp.engine) "ali" = Some re /\
              authorized_match re (visitors sample_world) = Some ali) /\
  exists w3 r,
    validateVisitor (RE := JsRegExp.engine) env o w2 =
      (Ok {| isAuthorized := true; visitorName := "Ali Hassan" |}, w3) /\
    trace w3 = trace w2 ++ lookups ["Stranger"; "ali"]
                 ++ [{| e_call := Save (visit ali now); e_ok := true |}] /\
    doc_by_id 1%N (visitors w3) = Some (visit ali now) /\
    v_visitCount (visit ali now) = 5 /\
    r_authorized r = true /\ r_name r = "Ali Hassan" /\
    result_handed_to_sink (RE := JsRegExp.engine) no_Date_parse env "e1"
      inline_event sample_world r w3.
Proof.
  cbn zeta.
  assert (Hup : store_reachable
                  (sample_env nothing_down
                     (names_outcome ["Stranger"; "ali"; "Sara"])))
    by (intros h c _; reflexivity).
  assert (Hpre : Forall (no_hit (RE := JsRegExp.engine) (visitors sample_world))
                        ["Stranger"])
    by (constructor; [eexists; split; reflexivity | constructor]).
  split; [reflexivity |]. split; [reflexivity |]. split; [exact Hup |].
  split; [exact Hpre |]. split; [eexists; split; reflexivity |].
  destruct (first_authorized_match_wins (RE := JsRegExp.engine) no_Date_parse
              (sample_env nothing_down (names_outcome ["Stranger"; "ali"; "Sara"]))
              "e1" inline_event sample_world
              (TsRaw "2025-12-29 08:40:35 PM") (Some "/9j/4AAQSkZJRg==")
              sample_world (names_outcome ["Stranger"; "ali"; "Sara"])
              (log (recognize_call (Some "/9j/4AAQSkZJRg==")) true sample_world)
              ["Stranger"] "ali" ["Sara"]
              (default JsRegExp.Eps (JsRegExp.compile "ali")) ali
              eq_refl eq_refl eq_refl eq_refl eq_refl eq_refl Hup Hpre
              eq_refl eq_refl)
    as (w3 & r & Hval & Ht & Hdoc & Hcount & _ & _ & Hauth & Hname & _ & Hsink).
  { discriminate. }
  exists w3, r.
  split; [exact Hval |]. split; [exact Ht |]. split; [exact Hdoc |].
  split; [reflexivity |]. split; [exact Hauth |]. split; [exact Hname |].
  exact Hsink.
Defined.

Lemma store_error_falls_back_witness :
  let o := names_outcome ["Ali"] in
  let env := sample_env store_down o in
  let img := Some "/9j/4AAQSkZJRg==" in
  let w2 := log (recognize_call img) true sample_world in
  let e := {| e_call := FindOne "Ali"; e_ok := false |} in
  let w3 := log (FindOne "Ali") false w2 in
  callFacialRecognition env img sample_world = (Ok o, w2) /\
  validateVisitor (RE := JsRegExp.engine) env o w2 =
    (Ok {| isAuthorized := false; visitorName := "Ali" |}, w3) /\
  trace w3 = trace w2 ++ [e] /\
  store_call (e_call e) = true /\ e_ok e = false /\
  exists r,
    r_authorized r = false /\ r_name r = "Ali" /\
    result_handed_to_sink (RE := JsRegExp.engine) no_Date_parse env "e1"
      inline_event sample_world r w3.
Proof.
  cbn zeta. do 5 (split; [reflexivity |]).
  destruct (store_error_falls_back (RE := JsRegExp.engine) no_Date_parse
              (sample_env store_down (names_outcome ["Ali"]))
              "e1" inline_event sample_world
              (TsRaw "2025-12-29 08:40:35 PM") (Some "/9j/4AAQSkZJRg==")
              sample_world (names_outcome ["Ali"])
              (log (recognize_call (Some "/9j/4AAQSkZJRg==")) true sample_world)
              "Ali" []
              (Ok {| isAuthorized := false; visitorName := "Ali" |})
              (log (FindOne "Ali") false
                 (log (recognize_call (Some "/9j/4AAQSkZJRg==")) true sample_world))
              [{| e_call := FindOne "Ali"; e_ok := false |}]
              {| e_call := FindOne "Ali"; e_ok := false |}
              eq_refl eq_refl eq_refl eq_refl eq_refl eq_refl eq_refl eq_refl
              (or_introl eq_refl) eq_refl eq_refl)
    as (_ & r & Hauth & Hname & _ & Hsink).
  exists r. split; [exact Hauth |]. split; [exact Hname | exact Hsink].
Defined.

Lemma candidate_is_a_pattern_witness :
  let o := names_outcome ["Stranger"; "("] in
  let env := sample_env nothing_down o in
  recognized_names o = Some (["Stranger"] ++ "(" :: []) /\
  RegExp_i (RegExpEngine := JsRegExp.engine) "(" = None /\
  Forall (no_hit (RE := JsRegExp.engine) (visitors sample_world)) ["Stranger"] /\
  exists w',
    validateVisitor (RE := JsRegExp.engine) env o sample_world =
      (Ok {| isAuthorized := false; visitorName := "Stranger" |}, w') /\
    visitors w' = visitors sample_world.
Proof.
  cbn zeta.
  assert (Hpre : Forall (no_hit (RE := JsRegExp.engine) (visitors sample_world))
                        ["Stranger"])
    by (constructor; [eexists; split; reflexivity | constructor]).
  split; [reflexivity |]. split; [reflexivity |]. split; [exact Hpre |].
  exact (proj1 (proj2 candidate_is_a_pattern) JsRegExp.engine
           (sample_env nothing_down (names_outcome ["Stranger"; "("]))
           (names_outcome ["Stranger"; "("]) sample_world
           ["Stranger"] "(" [] eq_refl eq_refl eq_refl eq_refl Hpre).
Defined.

(** ** The scenarios of the description, run on the sample data *)

(** Scenario A: the oracle names an authorized visitor. *)
Example scenario_authorized_visitor :
  let env := sample_env nothing_down (names_outcome ["Ali"]) in
  let w' := snd (onChildAdded (RE := JsRegExp.engine) no_Date_parse env
                   "e1" inline_event sample_world) in
  option_map (fun r => (r_recognized r, r_name r, r_authorized r))
             (results w' !! "e1") = Some (true, "Ali Hassan", true) /\
  option_map v_visitCount (doc_by_id 1%N (visitors w')) = Some 5 /\
  claims w' !! "e1" = Some true /\
  List.map m_title (sent w') = ["Welcome Ali Hassan!"].
Proof. vm_compute. repeat split. Qed.

(** Scenario B: the oracle names somebody the store does not know. *)
Example scenario_stranger :
  let env := sample_env nothing_down (names_outcome ["Stranger"]) in
  let w' := snd (onChildAdded (RE := JsRegExp.engine) no_Date_parse env
                   "e1" inline_event sample_world) in
  option_map (fun r => (r_recognized r, r_name r, r_authorized r))
             (results w' !! "e1") = Some (true, "Stranger", false) /\
  List.map m_title (sent w') = ["Visitor: Stranger"].
Proof. vm_compute. repeat split. Qed.

(** Scenario C: the oracle is unreachable. *)
Example scenario_oracle_down :
  let env := sample_env oracle_down (names_outcome ["Ali"]) in
  let w' := snd (onChildAdded (RE := JsRegExp.engine) no_Date_parse env
                   "e1" inline_event sample_world) in
  option_map (fun r => (r_recognized r, r_name r, r_authorized r))
             (results w' !! "e1") = Some (false, "unclassified", false) /\
  List.map m_title (sent w') = ["Visitor: unclassified"].
Proof. vm_compute. repeat split. Qed.

(** Scenario D, with a producer timestamp: no image of either form, and
    no call to the oracle. *)
Example scenario_no_image :
  let env := sample_env nothing_down (names_outcome ["Ali"]) in
  let w' := snd (onChildAdded (RE := JsRegExp.engine) no_Date_parse env
                   "e1" imageless_event sample_world) in
  option_map (fun r => (r_recognized r, r_name r, r_authorized r,
                        r_imageReference r))
             (results w' !! "e1")
    = Some (false, "unclassified", false, None) /\
  List.existsb oracle_down (List.map e_call (trace w')) = false /\
  List.length (trace w') = 3%nat.
Proof. vm_compute. repeat split. Qed.

(** The engine of the fragment on a few patterns. *)
Example patterns_of_the_fragment :
  List.map (fun p => option_map (fun r => JsRegExp.test r "Ali Hassan")
                                (JsRegExp.compile p))
           ["ali"; "a.*N"; "Stranger"; "(x|ss)+a"; ""; "a**"; "*"; "a)"; "("]
  = [Some true; Some true; Some false; Some true; Some true;
     None; None; None; None].
Proof. reflexivity. Qed.

(** ** Instances of the further properties on the sample data *)

Lemma pair_of_fst {A B} (p : A * B) (a : A) : fst p = a -> p = (a, snd p).
Proof. intros <-. apply surjective_pairing. Qed.

Lemma completed_delivery_has_result_or_is_unclaimed_witness :
  let env := sample_env nothing_down (names_outcome ["Ali"]) in
  let run := onChildAdded (RE := JsRegExp.engine) no_Date_parse env
               "e1" inline_event sample_world in
  ev_processed inline_event <> Some true /\
  fst run = Ok tt /\
  ((claims (snd run) !! "e1" = Some true /\
    exists r, results (snd run) !! "e1" = Some r) \/
   (claims (snd run) !! "e1" = Some false /\
    results (snd run) = results sample_world /\
    sent (snd run) = sent sample_world)).
Proof.
  cbn zeta. split; [discriminate |]. split; [reflexivity |].
  apply (completed_delivery_has_result_or_is_unclaimed
           (RE := JsRegExp.engine) no_Date_parse
           (sample_env nothing_down (names_outcome ["Ali"]))
           "e1" inline_event sample_world).
  - discriminate.
  - apply pair_of_fst. reflexivity.
Defined.

Lemma delivery_leaves_other_events_alone_witness :
  let env := sample_env nothing_down (names_outcome ["Ali"]) in
  let w' := snd (onChildAdded (RE := JsRegExp.engine) no_Date_parse env
                   "e1" inline_event sample_world) in
  "e2" <> "e1" /\
  results w' !! "e2" = results sample_world !! "e2" /\
  claims w' !! "e2" = claims sample_world !! "e2".
Proof.
  cbn zeta. split; [discriminate |].
  apply (delivery_leaves_other_events_alone (RE := JsRegExp.engine)).
  discriminate.
Defined.

Lemma notification_follows_stored_result_witness :
  let env := sample_env nothing_down (names_outcome ["Ali"]) in
  let w' := snd (onChildAdded (RE := JsRegExp.engine) no_Date_parse env
                   "e1" inline_event sample_world) in
  let m := notification "e1" (default blank_result (results w' !! "e1")) in
  trace w' = trace sample_world ++ trace w' /\
  In {| e_call := Send m; e_ok := true |} (trace w') /\
  exists before r,
    trace w' = before ++ [{| e_call := SinkSet "e1" r; e_ok := true |};
                          {| e_call := Send m; e_ok := true |}] /\
    m = notification "e1" r /\
    Forall (fun e => is_send (e_call e) = false) before /\
    results w' !! "e1" = Some r /\
    sent w' = sent sample_world ++ [m].
Proof.
  cbn zeta. split; [reflexivity |].
  assert (Hin : In {| e_call := Send (notification "e1"
                        (default blank_result
                           (results (snd (onChildAdded (RE := JsRegExp.engine)
                              no_Date_parse
                              (sample_env nothing_down (names_outcome ["Ali"]))
                              "e1" inline_event sample_world)) !! "e1")));
                      e_ok := true |}
                 (trace (snd (onChildAdded (RE := JsRegExp.engine) no_Date_parse
                           (sample_env nothing_down (names_outcome ["Ali"]))
                           "e1" inline_event sample_world))))
    by (vm_compute; tauto).
  split; [exact Hin |].
  exact (notification_follows_stored_result (RE := JsRegExp.engine)
           no_Date_parse (sample_env nothing_down (names_outcome ["Ali"]))
           "e1" inline_event sample_world _ _ true eq_refl Hin).
Defined.

Lemma written_results_are_sound_witness :
  let env := sample_env nothing_down (names_outcome ["Ali"]) in
  let w' := snd (onChildAdded (RE := JsRegExp.engine) no_Date_parse env
                   "e1" inline_event sample_world) in
  let r := default blank_result (results w' !! "e1") in
  trace w' = trace sample_world ++ trace w' /\
  In {| e_call := SinkSet "e1" r; e_ok := true |} (trace w') /\
  "e1" = "e1" /\ sound_result "e1" r.
Proof.
  cbn zeta. split; [reflexivity |].
  assert (Hin : In {| e_call := SinkSet "e1"
                        (default blank_result
                           (results (snd (onChildAdded (RE := JsRegExp.engine)
                              no_Date_parse
                              (sample_env nothing_down (names_outcome ["Ali"]))
                              "e1" inline_event sample_world)) !! "e1"));
                      e_ok := true |}
                 (trace (snd (onChildAdded (RE := JsRegExp.engine) no_Date_parse
                           (sample_env nothing_down (names_outcome ["Ali"]))
                           "e1" inline_event sample_world))))
    by (vm_compute; tauto).
  split; [exact Hin |].
  exact (written_results_are_sound (RE := JsRegExp.engine)
           no_Date_parse (sample_env nothing_down (names_outcome ["Ali"]))
           "e1" inline_event sample_world _ "e1" _ true eq_refl Hin).
Defined.

Lemma sample_ids_unique :
  List.NoDup (List.map v_id [sara; ali; alia]) /\
  List.NoDup (List.map v_id (visitors sample_world)).
Proof.
  split; repeat constructor; cbn; intros H;
    repeat (destruct H as [H | H]; [discriminate |]); exact H.
Qed.

Lemma delivery_preserves_visitors_witness :
  let env := sample_env nothing_down (names_outcome ["Ali"]) in
  let vs' := visitors (snd (onChildAdded (RE := JsRegExp.engine) no_Date_parse
                              env "e1" inline_event sample_world)) in
  List.NoDup (List.map v_id (visitors sample_world)) /\
  Forall2 same_but_visits (visitors sample_world) vs' /\
  List.map v_id vs' = List.map v_id (visitors sample_world).
Proof.
  cbn zeta. split; [exact (proj2 sample_ids_unique) |].
  apply (delivery_preserves_visitors (RE := JsRegExp.engine)).
  exact (proj2 sample_ids_unique).
Defined.

Lemma recognized_but_not_authorized_witness :
  let o := names_outcome ["Stranger"] in
  let env := sample_env nothing_down o in
  let img := Some "/9j/4AAQSkZJRg==" in
  let w2 := log (recognize_call img) true sample_world in
  callFacialRecognition env img sample_world = (Ok o, w2) /\
  store_reachable env /\
  Forall (no_hit (RE := JsRegExp.engine) (visitors sample_world)) ["Stranger"] /\
  exists w3 r,
    validateVisitor (RE := JsRegExp.engine) env o w2 =
      (Ok {| isAuthorized := false; visitorName := "Stranger" |}, w3) /\
    visitors w3 = visitors sample_world /\
    r_recognized r = true /\ r_authorized r = false /\
    r_name r = "Stranger" /\
    result_handed_to_sink (RE := JsRegExp.engine) no_Date_parse env "e1"
      inline_event sample_world r w3.
Proof.
  cbn zeta.
  assert (Hup : store_reachable
                  (sample_env nothing_down (names_outcome ["Stranger"])))
    by (intros h c _; reflexivity).
  assert (Hnone : Forall (no_hit (RE := JsRegExp.engine) (visitors sample_world))
                         ["Stranger"])
    by (constructor; [eexists; split; reflexivity | constructor]).
  split; [reflexivity |]. split; [exact Hup |]. split; [exact Hnone |].
  destruct (recognized_but_not_authorized (RE := JsRegExp.engine) no_Date_parse
              (sample_env nothing_down (names_outcome ["Stranger"]))
              "e1" inline_event sample_world
              (TsRaw "2025-12-29 08:40:35 PM") (Some "/9j/4AAQSkZJRg==")
              sample_world (names_outcome ["Stranger"])
              (log (recognize_call (Some "/9j/4AAQSkZJRg==")) true sample_world)
              "Stranger" []
              eq_refl eq_refl eq_refl eq_refl eq_refl eq_refl Hup Hnone)
    as (w3 & r & Hval & Hv & _ & Hrec & Hauth & Hname & Hsink).
  exists w3, r.
  split; [exact Hval |]. split; [exact Hv |]. split; [exact Hrec |].
  split; [exact Hauth |]. split; [exact Hname | exact Hsink].
Defined.

Lemma unusable_image_gives_unclassified_witness :
  let env := sample_env image_down (names_outcome ["Ali"]) in
  let get := HttpGet "http://192.168.1.20/capture.jpg" get_config in
  truthy_opt (ev_image url_event) = false /\
  truthy_opt (ev_imageUrl url_event) = true /\
  rejects env (trace sample_world) get = true /\
  exists ok img,
    acquireImage env url_event sample_world = (Ok img, log get ok sample_world) /\
    truthy_opt img = false /\
    exists r,
      r_recognized r = false /\ r_name r = "unclassified" /\
      r_authorized r = false /\ r_imageReference r = None /\
      result_handed_to_sink (RE := JsRegExp.engine) no_Date_parse env "e1"
        url_event sample_world r (log get ok sample_world).
Proof.
  cbn zeta. do 3 (split; [reflexivity |]).
  destruct (unusable_image_gives_unclassified (RE := JsRegExp.engine)
              no_Date_parse (sample_env image_down (names_outcome ["Ali"]))
              "e1" url_event sample_world (TsRaw "2025-12-29 08:40:35 PM")
              eq_refl eq_refl eq_refl (or_introl eq_refl))
    as (ok & img & Hacq & Himg & _ & r & H1 & H2 & H3 & H4 & Hsink).
  exists ok, img. split; [exact Hacq |]. split; [exact Himg |].
  exists r. split; [exact H1 |]. split; [exact H2 |]. split; [exact H3 |].
  split; [exact H4 | exact Hsink].
Defined.

Lemma delivery_http_calls_witness :
  let env := sample_env nothing_down (names_outcome ["Ali"]) in
  let w' := snd (onChildAdded (RE := JsRegExp.engine) no_Date_parse env
                   "e1" inline_event sample_world) in
  let e := {| e_call := recognize_call (Some "/9j/4AAQSkZJRg=="); e_ok := true |} in
  trace w' = trace sample_world ++ trace w' /\
  In e (trace w') /\
  http_call_of inline_event (e_call e).
Proof.
  cbn zeta. split; [reflexivity |].
  assert (Hin : In {| e_call := recognize_call (Some "/9j/4AAQSkZJRg==");
                      e_ok := true |}
                 (trace (snd (onChildAdded (RE := JsRegExp.engine) no_Date_parse
                           (sample_env nothing_down (names_outcome ["Ali"]))
                           "e1" inline_event sample_world))))
    by (vm_compute; tauto).
  split; [exact Hin |].
  exact (delivery_http_calls (RE := JsRegExp.engine)
           no_Date_parse (sample_env nothing_down (names_outcome ["Ali"]))
           "e1" inline_event sample_world _ _ eq_refl Hin).
Defined.

Lemma result_write_replaces_witness :
  let env := sample_env nothing_down (names_outcome ["Ali"]) in
  let r2 := {| r_deviceId := "esp32-cam-1"; r_timestamp := TsIso 5;
               r_originalTimestamp := TsIso 1; r_recognized := true;
               r_name := "Ali Hassan"; r_authorized := true;
               r_imageReference := Some "event_e1";
               r_messageType := "motion_detection" |} in
  let w1 := snd (writeRecognitionResult env "e1" blank_result sample_world) in
  let w2 := snd (writeRecognitionResult env "e1" r2 w1) in
  rejects env (trace sample_world) (SinkSet "e1" blank_result) = false /\
  rejects env (trace w1) (SinkSet "e1" r2) = false /\
  results w2 !! "e1" = Some r2 /\
  results w2 = <["e1" := r2]> (results sample_world).
Proof.
  cbn zeta. split; [reflexivity |]. split; [reflexivity |].
  destruct (proj1 (result_write_replaces
                     (sample_env nothing_down (names_outcome ["Ali"])) "e1"
                     blank_result
                     {| r_deviceId := "esp32-cam-1"; r_timestamp := TsIso 5;
                        r_originalTimestamp := TsIso 1; r_recognized := true;
                        r_name := "Ali Hassan"; r_authorized := true;
                        r_imageReference := Some "event_e1";
                        r_messageType := "motion_detection" |}
                     sample_world) eq_refl eq_refl) as (H1 & H2 & _).
  split; [exact H1 | exact H2].
Defined.

Lemma initialize_is_idempotent_witness :
  let s' := {| isInitialized := true; apps := 1; listeners := 1 |} in
  initialize all_goes_well fresh_boot = (Ok tt, s') /\
  initialize listener_fails s' = (Ok tt, s') /\
  initialize_all [listener_fails; all_goes_well] s' = s'.
Proof.
  cbn zeta. split; [reflexivity |].
  destruct (initialize_is_idempotent all_goes_well fresh_boot
              {| isInitialized := true; apps := 1; listeners := 1 |} eq_refl)
    as (_ & H1 & H2).
  split; [apply H1 | apply H2].
Defined.

Lemma failed_listener_is_never_attached_witness :
  isInitialized fresh_boot = false /\ apps fresh_boot = 0%nat /\
  listener_attaches listener_fails = false /\
  exists s',
    initialize listener_fails fresh_boot = (Throw FirebaseError, s') /\
    isInitialized s' = true /\
    listeners (initialize_all [all_goes_well; all_goes_well] s') = 0%nat.
Proof.
  do 3 (split; [reflexivity |]).
  destruct (failed_listener_is_never_attached listener_fails fresh_boot
              eq_refl eq_refl eq_refl eq_refl eq_refl)
    as (s' & Hrun & Hi & _ & _ & Hl).
  exists s'. split; [exact Hrun |]. split; [exact Hi | apply Hl].
Defined.

Lemma reading_routes_never_fail_witness :
  query_limit sample_parseInt (Some "-5") <= 0 /\
  lr_status (get_results sample_parseInt sample_db (Some "-5")) = 200%nat /\
  lr_items (get_results sample_parseInt sample_db (Some "-5")) = Some ∅ /\
  lr_count (get_results sample_parseInt sample_db (Some "-5")) = Some 0%nat.
Proof.
  assert (Hneg : query_limit sample_parseInt (Some "-5") <= 0)
    by (vm_compute; discriminate).
  split; [exact Hneg |].
  destruct (reading_routes_never_fail sample_parseInt sample_db (Some "-5"))
    as (_ & _ & _ & Hs & _ & _ & _ & Hbad).
  split; [exact Hs |].
  destruct (Hbad (or_intror Hneg)) as (_ & _ & Hi & Hc).
  split; [exact Hi | exact Hc].
Defined.

Lemma post_visitor_outcomes_witness :
  let run := post_visitor (RE := JsRegExp.engine) ascii_trim ascii_set_email
               sample_store (Some "admin@smartbell.com") (body_named "  Omar ")
               [sara; ali] in
  rp_status (fst run) = 201%nat /\
  exists doc,
    rp_visitor (fst run) = Some doc /\ snd run = [sara; ali] ++ [doc] /\
    v_name doc = "Omar" /\ v_isAuthorized doc = true /\
    v_visitCount doc = 0 /\ v_lastVisit doc = None.
Proof.
  cbn zeta.
  assert (H201 : rp_status (fst (post_visitor (RE := JsRegExp.engine)
                   ascii_trim ascii_set_email sample_store
                   (Some "admin@smartbell.com") (body_named "  Omar ")
                   [sara; ali])) = 201%nat) by reflexivity.
  split; [exact H201 |].
  destruct (post_visitor_outcomes (RE := JsRegExp.engine) ascii_trim
              ascii_set_email sample_store (Some "admin@smartbell.com")
              (body_named "  Omar ") [sara; ali]) as (_ & _ & _ & Hadd).
  destruct (Hadd H201)
    as (name & re & doc & Hname & _ & Hdoc & Hvs & _ & Hn & _ & Hauth & Hcount
        & Hlast & _).
  exists doc. split; [exact Hdoc |]. split; [exact Hvs |].
  split; [| split; [exact Hauth | split; [exact Hcount | exact Hlast]]].
  rewrite Hn. injection Hname as <-. reflexivity.
Defined.

Lemma post_visitor_refuses_pattern_match_witness :
  truthy_string (b_name (body_named "ali")) = Some "ali" /\
  In ali [sara; ali] /\
  option_map (fun re => JsRegExp.test re (v_name ali)) (JsRegExp.compile "ali")
    = Some true /\
  post_visitor (RE := JsRegExp.engine) ascii_trim ascii_set_email sample_store
    (Some "admin@smartbell.com") (body_named "ali") [sara; ali] =
    (reply_error 400 "Visitor with this name already exists", [sara; ali]).
Proof.
  split; [reflexivity |]. split; [right; left; reflexivity |].
  split; [reflexivity |].
  apply (post_visitor_refuses_pattern_match (RE := JsRegExp.engine) ascii_trim
           ascii_set_email sample_store (Some "admin@smartbell.com")
           (body_named "ali") [sara; ali] "ali"
           (default JsRegExp.Eps (JsRegExp.compile "ali")) ali);
    try reflexivity.
  right; left; reflexivity.
Defined.

Lemma added_visitor_is_authorized_witness :
  let run := post_visitor (RE := JsRegExp.engine) ascii_trim ascii_set_email
               sample_store (Some "admin@smartbell.com") (body_named "Omar")
               [sara; ali] in
  let o := names_outcome ["Omar"] in
  let env := sample_env nothing_down o in
  let w := {| claims := ∅; visitors := snd run; results := ∅; sent := [];
              trace := [] |} in
  rp_status (fst run) = 201%nat /\
  store_reachable env /\
  exists doc w',
    rp_visitor (fst run) = Some doc /\
    validateVisitor (RE := JsRegExp.engine) env o w =
      (Ok {| isAuthorized := true; visitorName := "Omar" |}, w') /\
    option_map v_visitCount (doc_by_id (v_id doc) (visitors w')) = Some 1.
Proof.
  cbn zeta.
  assert (Hup : store_reachable (sample_env nothing_down (names_outcome ["Omar"])))
    by (intros h c _; reflexivity).
  split; [reflexivity |]. split; [exact Hup |].
  destruct (added_visitor_is_authorized (RE := JsRegExp.engine)
              (sample_env nothing_down (names_outcome ["Omar"]))
              ascii_trim ascii_set_email sample_store
              (Some "admin@smartbell.com") (body_named "Omar") [sara; ali]
              "Omar" (default JsRegExp.Eps (JsRegExp.compile "Omar"))
              (names_outcome ["Omar"])
              {| claims := ∅;
                 visitors := snd (post_visitor (RE := JsRegExp.engine)
                               ascii_trim ascii_set_email sample_store
                               (Some "admin@smartbell.com") (body_named "Omar")
                               [sara; ali]);
                 results := ∅; sent := []; trace := [] |}
              eq_refl eq_refl eq_refl eq_refl eq_refl Hup eq_refl eq_refl eq_refl)
    as (doc & w' & Hdoc & _ & Hval & Hcount).
  exists doc, w'. split; [exact Hdoc |]. split; [exact Hval | exact Hcount].
Defined.

Lemma put_visitor_outcomes_witness :
  let run := put_visitor ascii_trim ascii_set_email sample_store (Some 1%N)
               revoke_body [sara; ali] in
  rp_status (fst run) = 200%nat /\
  exists new,
    rp_visitor (fst run) = Some new /\ snd run = store_doc new [sara; ali] /\
    v_isAuthorized new = false /\ v_name new = "Ali Hassan" /\
    v_visitCount new = 4.
Proof.
  cbn zeta.
  assert (H200 : rp_status (fst (put_visitor ascii_trim ascii_set_email
                   sample_store (Some 1%N) revoke_body [sara; ali])) = 200%nat)
    by reflexivity.
  split; [exact H200 |].
  destruct (put_visitor_outcomes ascii_trim ascii_set_email sample_store
              (Some 1%N) revoke_body [sara; ali]) as (_ & _ & _ & Hput).
  destruct (Hput H200)
    as (i & old & new & Hid & Hold & Hnew & Hdoc & Hvs & _ & Hcount & _ & _
        & Hname & _).
  injection Hid as <-. vm_compute in Hold. injection Hold as <-.
  exists new. split; [exact Hdoc |]. split; [exact Hvs |].
  split; [by rewrite Hnew |]. split; [by rewrite (Hname eq_refl) | exact Hcount].
Defined.

Lemma revoked_visitor_is_never_matched_witness :
  let vs' := snd (put_visitor ascii_trim ascii_set_email sample_store
                    (Some 1%N) revoke_body [sara; ali; alia]) in
  b_isAuthorized revoke_body = Some false /\
  option_map (fun re => authorized_match (RE := JsRegExp.engine) re vs')
             (JsRegExp.compile "ali") = Some (Some alia) /\
  v_id alia <> 1%N.
Proof.
  cbn zeta. split; [reflexivity |]. split; [reflexivity |].
  apply (revoked_visitor_is_never_matched (RE := JsRegExp.engine) ascii_trim
           ascii_set_email sample_store 1%N revoke_body [sara; ali; alia]
           (default JsRegExp.Eps (JsRegExp.compile "ali")) alia);
    reflexivity.
Defined.

Lemma delete_visitor_outcomes_witness :
  let run := delete_visitor sample_store (Some 1%N) [sara; ali; alia] in
  List.NoDup (List.map v_id [sara; ali; alia]) /\
  rp_status (fst run) = 200%nat /\
  doc_by_id 1%N (snd run) = None /\
  doc_by_id 3%N (snd run) = doc_by_id 3%N [sara; ali; alia].
Proof.
  cbn zeta. split; [exact (proj1 sample_ids_unique) |].
  assert (H200 : rp_status (fst (delete_visitor sample_store (Some 1%N)
                                   [sara; ali; alia])) = 200%nat) by reflexivity.
  split; [exact H200 |].
  destruct (delete_visitor_outcomes sample_store (Some 1%N) [sara; ali; alia]
              (proj1 sample_ids_unique)) as (_ & _ & _ & Hdel).
  destruct (Hdel H200) as (i & [= <-] & _ & Hgone & Hother & _).
  split; [exact Hgone |]. apply Hother. discriminate.
Defined.

Lemma collection_stays_well_formed_witness :
  well_formed_store [sara; ali; alia] /\
  well_formed_store
    (snd (put_visitor ascii_trim ascii_set_email sample_store (Some 1%N)
            revoke_body [sara; ali; alia])) /\
  well_formed_store (snd (delete_visitor sample_store (Some 3%N) [sara; ali; alia])).
Proof.
  assert (Hwf : well_formed_store [sara; ali; alia]).
  { split; [exact (proj1 sample_ids_unique) |].
    repeat constructor; discriminate. }
  split; [exact Hwf |].
  destruct (collection_stays_well_formed (RE := JsRegExp.engine) no_Date_parse
              (sample_env nothing_down (names_outcome ["Ali"]))
              ascii_trim ascii_set_email sample_store [sara; ali; alia] Hwf)
    as (Hput & Hdel & _).
  split; [apply Hput | apply Hdel].
Defined.

Lemma status_counts_witness :
  let reply := get_status sample_store fresh_boot [sara; ali; alia] in
  st_status reply = 200%nat /\
  st_totalVisitors reply = Some 3%nat /\
  st_authorizedVisitors reply = Some 2%nat /\
  exists total authorized,
    st_totalVisitors reply = Some total /\
    st_authorizedVisitors reply = Some authorized /\
    (authorized <= total)%nat.
Proof.
  cbn zeta.
  assert (H200 : st_status (get_status sample_store fresh_boot [sara; ali; alia])
                 = 200%nat) by reflexivity.
  split; [exact H200 |]. split; [reflexivity |]. split; [reflexivity |].
  destruct (proj2 (status_counts sample_store fresh_boot [sara; ali; alia]) H200)
    as (total & authorized & Ht & Ha & _ & Hle & _).
  exists total, authorized. split; [exact Ht |]. split; [exact Ha | exact Hle].
Defined.

(** The routes on the sample data. *)
Example routes_on_the_sample_data :
  (* a name that trims to nothing is answered 500 and not stored *)
  post_visitor (RE := JsRegExp.engine) ascii_trim ascii_set_email sample_store
    None (body_named "   ") [sara] =
    (reply_error 500 "Failed to add visitor", [sara]) /\
  (* a name a stored name contains is refused, whoever bears it *)
  rp_status (fst (post_visitor (RE := JsRegExp.engine) ascii_trim
                    ascii_set_email sample_store None (body_named "kha") [sara]))
    = 400%nat /\
  (* the email is trimmed and lower-cased *)
  option_map v_email
    (rp_visitor (fst (post_visitor (RE := JsRegExp.engine) ascii_trim
                        ascii_set_email sample_store None (body_named "Omar")
                        [sara])))
    = Some (Some "guest@example.com") /\
  (* an id that is not in the collection *)
  rp_status (fst (put_visitor ascii_trim ascii_set_email sample_store
                    (Some 9%N) revoke_body [sara; ali])) = 404%nat /\
  rp_status (fst (delete_visitor sample_store None [sara; ali])) = 500%nat.
Proof. repeat split. Qed.
